(** * sentraproxy: the forwarding / relay engine of [src/index.js]

    A shallow embedding of the proxy server's request forwarder
    ([proxyRequest]), streaming downloader ([app.all('/download')]),
    WebSocket information endpoint ([app.get('/ws-proxy')]) and WebSocket
    relay ([server.on('upgrade')]), followed by the properties the
    specification states about them.

    Conventions.
    - A JavaScript string is a [string]; a Node [Buffer] is a [list byte].
    - A JavaScript object used as a dictionary ([req.headers],
      [proxyRes.headers], the outbound [headers] literal) is a
      [gmap string string]; [req.query], whose enumeration order reaches
      the outbound path, is an association list.
    - Callbacks registered with [.on(event, ...)] are functions from the
      state they close over to an [outcome]: either the callback returns,
      or an exception leaves it.
    - What Node, Express and [ws] do (parsing a URL, JSON, opening a
      socket) is not code of this repository: it enters as a Section
      variable, or as the documented behaviour of the object the callback
      is handed ([res], [proxyReq], a WebSocket). *)

From Stdlib Require Import ZArith Strings.Ascii Strings.String Strings.Byte List.
From stdpp Require Import gmap strings list pretty.

Local Set Warnings "-register-all".
Local Open Scope string_scope.
Local Open Scope Z_scope.
Local Open Scope list_scope.

(** ** Exceptions and state: the monad the callbacks run in *)

Inductive outcome (S A : Type) : Type :=
| Returned (a : A) (s : S)
| Thrown (e : string) (s : S).
Arguments Returned {S A} a s.
Arguments Thrown {S A} e s.

Definition final_state {S A} (o : outcome S A) : S :=
  match o with Returned _ s => s | Thrown _ s => s end.

Definition has_thrown {S A} (o : outcome S A) : bool :=
  match o with Returned _ _ => false | Thrown _ _ => true end.

Definition Eff (S A : Type) : Type := S → outcome S A.

Definition eff_ret {S A} (a : A) : Eff S A := λ s, Returned a s.

Definition eff_bind {S A B} (m : Eff S A) (k : A → Eff S B) : Eff S B :=
  λ s, match m s with
       | Returned a s' => k a s'
       | Thrown e s' => Thrown e s'
       end.

Definition throw {S A} (e : string) : Eff S A := λ s, Thrown e s.

(** [try { m } catch (error) { h error }] *)
Definition try_catch {S A} (m : Eff S A) (h : string → Eff S A) : Eff S A :=
  λ s, match m s with
       | Returned a s' => Returned a s'
       | Thrown e s' => h e s'
       end.

Definition get_state {S} : Eff S S := λ s, Returned s s.
Definition modify_state {S} (f : S → S) : Eff S unit := λ s, Returned tt (f s).

Notation "'do' x <- m ;; k" := (eff_bind m (λ x, k))
  (at level 10, x name, m at level 99, k at level 200).
Notation "m ;;; k" := (eff_bind m (λ _, k))
  (at level 100, k at level 200, right associativity).

(** Running a computation on a component of a larger state. *)
Definition zoom {S T A} (proj : S → T) (upd : T → S → S) (m : Eff T A) : Eff S A :=
  λ s, match m (proj s) with
       | Returned a t => Returned a (upd t s)
       | Thrown e t => Thrown e (upd t s)
       end.

(** ** JavaScript values *)

Definition Buffer : Type := list byte.

(** Data that travels as JSON.  Numbers are kept as integers: no code of
    the proxy inspects a number. *)
Inductive jsvalue : Type :=
| JNull
| JBool (b : bool)
| JNum (n : Z)
| JStr (s : string)
| JArr (l : list jsvalue)
| JObj (fields : list (string * jsvalue)).

(** [a || b] on strings that may be [undefined]: the left operand when it
    is truthy (defined and non-empty), the right one otherwise. *)
Definition or_else (o : option string) (d : string) : string :=
  match o with
  | Some s => if String.eqb s "" then d else s
  | None => d
  end.

(** The characters the source writes with an escape. *)
Definition dquote : string := String (ascii_of_nat 34) EmptyString.
Definition CRLF : string := String (ascii_of_nat 13) (String (ascii_of_nat 10) EmptyString).

(** ['HTTP/1.1 ' + status + '\r\n\r\n'], the raw answer to a refused upgrade. *)
Definition status_line (status : string) : string :=
  "HTTP/1.1 " +:+ status +:+ CRLF +:+ CRLF.

(** [String.prototype.includes] *)
Fixpoint includes (s sub : string) : bool :=
  if String.prefix sub s then true
  else match s with
       | EmptyString => false
       | String _ rest => includes rest sub
       end.

(** [Array.prototype.includes] on an array of strings *)
Definition array_includes (l : list string) (x : string) : bool :=
  existsb (String.eqb x) l.

(** ** The Express response object [res] *)

Inductive Payload : Type :=
| PJson (v : jsvalue)     (* the argument of [res.json] *)
| PBuffer (b : Buffer).   (* the argument of [res.send] / [res.write] *)

(** [res] knows the request it answers ([res.req]): [res.send] reads its
    method and, through [req.fresh], its validators.  The comparison of
    the validators is the work of the [fresh] package: [req_validators h p]
    tells whether the If-None-Match / If-Modified-Since headers of the
    inbound request match a response with the headers [h] and the body
    [p], that is its ETag (the header set, or the one Express derives
    from the body when none is set) and its Last-Modified. *)
Record Response : Type := mkResponse {
  statusCode : Z;                               (* [res.statusCode] *)
  resHeaders : gmap string string;              (* headers set so far *)
  head : option (Z * gmap string string);       (* status line and headers as flushed *)
  out : list Payload;                           (* body pieces handed to the caller, in order *)
  finished : bool;                              (* [res.end] has run *)
  req_method : string;                          (* [res.req.method] *)
  req_validators : gmap string string → Payload → bool
}.

(** The response object of an inbound request with the given method and
    validators, before the handler has touched it. *)
Definition response_for (inbound_method : string)
    (validators : gmap string string → Payload → bool) : Response :=
  {| statusCode := 200; resHeaders := ∅; head := None; out := []; finished := false;
     req_method := inbound_method; req_validators := validators |}.

(** The response object of a GET that carries no validator. *)
Definition fresh_response : Response :=
  {| statusCode := 200; resHeaders := ∅; head := None; out := []; finished := false;
     req_method := "GET"; req_validators := λ _ _, false |}.

(** [res.headersSent] *)
Definition headersSent (r : Response) : bool :=
  match head r with Some _ => true | None => false end.

Definition ERR_HTTP_HEADERS_SENT : string := "ERR_HTTP_HEADERS_SENT".

(** [res.status(code)] only assigns [statusCode]. *)
Definition res_status (code : Z) : Eff Response unit :=
  modify_state (λ r, {| statusCode := code; resHeaders := resHeaders r;
                        head := head r; out := out r; finished := finished r;
                        req_method := req_method r; req_validators := req_validators r |}).

(** [res.setHeader(name, value)] throws once the head has been flushed. *)
Definition res_setHeader (name value : string) : Eff Response unit :=
  λ r, if headersSent r then Thrown ERR_HTTP_HEADERS_SENT r
       else Returned tt {| statusCode := statusCode r;
                           resHeaders := <[name := value]> (resHeaders r);
                           head := head r; out := out r; finished := finished r;
                           req_method := req_method r;
                           req_validators := req_validators r |}.

(** The head goes out with the first body byte: status and headers are
    fixed from then on. *)
Definition flush_head (r : Response) : option (Z * gmap string string) :=
  match head r with
  | Some h => Some h
  | None => Some (statusCode r, resHeaders r)
  end.

(** [req.fresh], as [res.send] evaluates it: only the answer to a GET or
    HEAD with a 2xx status or 304 can be fresh, and then the validators
    decide. *)
Definition success_status (status : Z) : bool :=
  ((200 <=? status) && (status <? 300)) || (status =? 304).

Definition req_fresh (p : Payload) (r : Response) : bool :=
  success_status (statusCode r)
  && (String.eqb (req_method r) "GET" || String.eqb (req_method r) "HEAD")
  && req_validators r (resHeaders r) p.

(** The statuses whose body [res.send] replaces by the empty string. *)
Definition bodiless (status : Z) : bool :=
  (status =? 204) || (status =? 205) || (status =? 304).

(** The headers [res.send] removes for such a status, under the
    lower-case names the handlers set them with. *)
Definition entity_headers_removed (status : Z) (h : gmap string string) : gmap string string :=
  if (status =? 204) || (status =? 304) then
    delete "transfer-encoding" (delete "content-length" (delete "content-type" h))
  else if status =? 205 then delete "transfer-encoding" h
  else h.

(** What [res.send] does to a response whose head is not out.  A fresh
    request is answered 304; a 204, 205 or 304 answer loses its body and
    its entity headers; a HEAD request is answered without a body; the
    response is ended.  The headers Express derives from the body
    (Content-Length, ETag, a default Content-Type or charset) are not
    tracked: [head] lists the headers the handler set. *)
Definition express_send (p : Payload) (r : Response) : Response :=
  let status := if req_fresh p r then 304 else statusCode r in
  let h := entity_headers_removed status (resHeaders r) in
  {| statusCode := status; resHeaders := h; head := Some (status, h);
     out := if bodiless status || String.eqb (req_method r) "HEAD" then out r
            else out r ++ [p];
     finished := true;
     req_method := req_method r; req_validators := req_validators r |}.

(** [res.json(obj)] and [res.send(buffer)] set headers before writing, so
    both throw [ERR_HTTP_HEADERS_SENT] on a response whose head is out;
    [res.json] serialises its argument and calls [res.send]. *)
Definition res_complete (p : Payload) : Eff Response unit :=
  λ r, if headersSent r then Thrown ERR_HTTP_HEADERS_SENT r
       else Returned tt (express_send p r).

Definition res_json (v : jsvalue) : Eff Response unit := res_complete (PJson v).
Definition res_send (b : Buffer) : Eff Response unit := res_complete (PBuffer b).

(** [res.write(chunk)]: flushes the head if needed and hands the chunk to
    the caller; after [end] the chunk is dropped. *)
Definition res_write (chunk : Buffer) : Eff Response unit :=
  modify_state (λ r,
    if finished r then r
    else {| statusCode := statusCode r; resHeaders := resHeaders r;
            head := flush_head r; out := out r ++ [PBuffer chunk]; finished := false;
            req_method := req_method r; req_validators := req_validators r |}).

(** [res.end()] *)
Definition res_end : Eff Response unit :=
  modify_state (λ r,
    if finished r then r
    else {| statusCode := statusCode r; resHeaders := resHeaders r;
            head := flush_head r; out := out r; finished := true;
            req_method := req_method r; req_validators := req_validators r |}).

(** The bytes the caller has received through [write]/[send]. *)
Fixpoint out_bytes (ps : list Payload) : Buffer :=
  match ps with
  | [] => []
  | PBuffer b :: rest => b ++ out_bytes rest
  | PJson _ :: rest => out_bytes rest
  end.

(** The status the caller saw, if a head has gone out. *)
Definition sent_status (r : Response) : option Z := fst <$> head r.

(** ** The inbound request [req] *)

(** A value of [req.query]: the query parser yields strings, arrays
    (repeated keys) and nested objects (bracketed keys). *)
Inductive qvalue : Type :=
| QStr (s : string)
| QArr (l : list qvalue)
| QObj (fields : list (string * qvalue)).

(** [String(value)], the conversion [URLSearchParams.append] and
    [new URL] apply to their arguments. *)
Fixpoint qvalue_toString (v : qvalue) : string :=
  match v with
  | QStr s => s
  | QArr l => String.concat "," (map qvalue_toString l)
  | QObj _ => "[object Object]"
  end.

Definition qvalue_truthy (v : qvalue) : bool :=
  match v with
  | QStr s => negb (String.eqb s "")
  | _ => true
  end.

(** Truthiness of a parsed body. *)
Definition js_truthy (v : jsvalue) : bool :=
  match v with
  | JNull => false
  | JBool b => b
  | JNum n => negb (n =? 0)
  | JStr s => negb (String.eqb s "")
  | JArr _ | JObj _ => true
  end.

Record Request : Type := mkRequest {
  method : string;                       (* [req.method] *)
  headers : gmap string string;          (* [req.headers], names lower-cased by Node *)
  query : list (string * qvalue);        (* [Object.entries(req.query)] *)
  reqBody : option jsvalue               (* [req.body], [None] when undefined *)
}.

(** Property access [obj[key]] on an object given by its entries. *)
Fixpoint prop {V} (obj : list (string * V)) (key : string) : option V :=
  match obj with
  | [] => None
  | (k, v) :: rest => if String.eqb k key then Some v else prop rest key
  end.

Definition body_truthy (req : Request) : bool :=
  match reqBody req with Some v => js_truthy v | None => false end.

(** ** application/x-www-form-urlencoded, as [URLSearchParams.toString]
    serialises: on the UTF-8 bytes of the string, ASCII alphanumerics
    and [*-._] stay, a space becomes [+], every other byte is
    percent-encoded with upper-case hexadecimal digits. *)

Definition char_code (c : ascii) : Z := Z.of_N (N_of_ascii c).

Definition is_alnum (c : ascii) : bool :=
  let n := char_code c in
  ((48 <=? n) && (n <=? 57)) || ((65 <=? n) && (n <=? 90)) || ((97 <=? n) && (n <=? 122)).

Definition form_safe (c : ascii) : bool :=
  is_alnum c || Ascii.eqb c "*" || Ascii.eqb c "-" || Ascii.eqb c "." || Ascii.eqb c "_".

Definition hex_digit (n : Z) : ascii :=
  ascii_of_N (Z.to_N (if n <? 10 then 48 + n else 55 + n)).

Definition form_encode_char (c : ascii) : string :=
  if form_safe c then String c EmptyString
  else if Ascii.eqb c " " then "+"
  else String "%" (String (hex_digit (char_code c / 16)) (String (hex_digit (char_code c mod 16)) EmptyString)).

Fixpoint form_urlencode (s : string) : string :=
  match s with
  | EmptyString => EmptyString
  | String c rest => form_encode_char c +:+ form_urlencode rest
  end.

(** A [URLSearchParams] object is the list of the pairs appended to it. *)
Definition URLSearchParams : Type := list (string * string).

Definition URLSearchParams_append (k v : string) (p : URLSearchParams) : URLSearchParams :=
  p ++ [(k, v)].

Definition form_pair (kv : string * string) : string :=
  form_urlencode kv.1 +:+ "=" +:+ form_urlencode kv.2.

Definition URLSearchParams_toString (p : URLSearchParams) : string :=
  String.concat "&" (map form_pair p).

(** ** Parsed URLs and outbound request options *)

Record URL : Type := mkURL {
  protocol : string;    (* with the trailing colon, e.g. ["https:"] *)
  hostname : string;
  port : string;        (* [""] when the URL has no explicit port *)
  pathname : string;
  search : string       (* [""] or ["?..."] *)
}.

(** [options.port] is the URL's port string or a default number. *)
Inductive Port : Type :=
| PortStr (s : string)
| PortNum (n : Z).

Record RequestOptions : Type := mkOptions {
  opt_hostname : string;
  opt_port : Port;
  opt_path : string;
  opt_method : string;
  opt_headers : gmap string string;
  rejectUnauthorized : bool;
  timeout : Z
}.

Definition default_port (u : URL) : Port :=
  if String.eqb (port u) "" then
    PortNum (if String.eqb (protocol u) "https:" then 443 else 80)
  else PortStr (port u).

(** [const httpModule = getHttpModule(parsedUrl.protocol)] *)
Inductive HttpModule : Type := mod_http | mod_https.

Definition getHttpModule (protocol : string) : HttpModule :=
  if String.eqb protocol "https:" then mod_https else mod_http.

(** ** State of one forwarded request *)

(** The upstream response [proxyRes] as the callbacks read it. *)
Record IncomingMessage : Type := mkIncoming {
  im_statusCode : Z;
  im_headers : gmap string string
}.

(** The outbound request [proxyReq]. *)
Record ClientRequest : Type := mkClientRequest {
  cr_module : HttpModule;
  cr_options : RequestOptions;
  cr_written : list string;     (* arguments of [proxyReq.write] *)
  cr_ended : bool;              (* [proxyReq.end()] *)
  cr_destroyed : bool           (* [proxyReq.destroy()] *)
}.

(** Everything the callbacks of one request close over. *)
Record Exchange : Type := mkExchange {
  res : Response;
  proxyReq : option ClientRequest;    (* [None] until [httpModule.request] returned *)
  proxyRes : option IncomingMessage;  (* [None] until the response callback ran *)
  responseData : Buffer;              (* forwarder: [let responseData] *)
  downloadedBytes : Z                 (* downloader: [let downloadedBytes] *)
}.

Definition new_exchange : Exchange :=
  {| res := fresh_response; proxyReq := None; proxyRes := None;
     responseData := []; downloadedBytes := 0 |}.

Definition set_res (r : Response) (x : Exchange) : Exchange :=
  {| res := r; proxyReq := proxyReq x; proxyRes := proxyRes x;
     responseData := responseData x; downloadedBytes := downloadedBytes x |}.

Definition set_proxyReq (c : option ClientRequest) (x : Exchange) : Exchange :=
  {| res := res x; proxyReq := c; proxyRes := proxyRes x;
     responseData := responseData x; downloadedBytes := downloadedBytes x |}.

Definition set_proxyRes (m : option IncomingMessage) (x : Exchange) : Exchange :=
  {| res := res x; proxyReq := proxyReq x; proxyRes := m;
     responseData := responseData x; downloadedBytes := downloadedBytes x |}.

Definition set_responseData (b : Buffer) (x : Exchange) : Exchange :=
  {| res := res x; proxyReq := proxyReq x; proxyRes := proxyRes x;
     responseData := b; downloadedBytes := downloadedBytes x |}.

Definition set_downloadedBytes (n : Z) (x : Exchange) : Exchange :=
  {| res := res x; proxyReq := proxyReq x; proxyRes := proxyRes x;
     responseData := responseData x; downloadedBytes := n |}.

(** Calls on [res] from a callback. *)
Definition on_res {A} (m : Eff Response A) : Eff Exchange A := zoom res set_res m.

(** [proxyReq.write(data)], [proxyReq.end()], [proxyReq.destroy()] *)
Definition cr_write (data : string) (c : ClientRequest) : ClientRequest :=
  {| cr_module := cr_module c; cr_options := cr_options c;
     cr_written := cr_written c ++ [data]; cr_ended := cr_ended c;
     cr_destroyed := cr_destroyed c |}.

Definition cr_end (c : ClientRequest) : ClientRequest :=
  {| cr_module := cr_module c; cr_options := cr_options c;
     cr_written := cr_written c; cr_ended := true; cr_destroyed := cr_destroyed c |}.

Definition cr_destroy (c : ClientRequest) : ClientRequest :=
  {| cr_module := cr_module c; cr_options := cr_options c;
     cr_written := cr_written c; cr_ended := cr_ended c; cr_destroyed := true |}.

Definition on_proxyReq (f : ClientRequest → ClientRequest) : Eff Exchange unit :=
  modify_state (λ x, set_proxyReq (f <$> proxyReq x) x).

(** Is the outbound connection of this exchange destroyed? *)
Definition outbound_destroyed (x : Exchange) : bool :=
  match proxyReq x with Some c => cr_destroyed c | None => false end.

(** What the event loop delivers to the callbacks of one exchange. *)
Inductive Event : Type :=
| EvResponse (m : IncomingMessage)          (* the callback of [httpModule.request] *)
| EvData (chunk : Buffer)                   (* [proxyRes.on('data')] *)
| EvEnd                                     (* [proxyRes.on('end')] *)
| EvStreamError (message : string)          (* [proxyRes.on('error')] *)
| EvError (code message : string)           (* [proxyReq.on('error')], [error.code] *)
| EvTimeout.                                (* [proxyReq.on('timeout')] *)

(** ** State of one WebSocket relay *)

Inductive ReadyState : Type := CONNECTING | OPEN | CLOSING | CLOSED.

(** What [send] is given: a string goes out as a text message, a Buffer
    as a binary one. *)
Inductive Message : Type :=
| MText (s : string)
| MBinary (b : Buffer).

(** The arguments of one [close(code, reason)] call; [None] for an
    argument that was not passed. *)
Record CloseCall : Type := mkCloseCall {
  cc_code : option Z;
  cc_reason : option string
}.

(** A [ws] WebSocket object, client-side or outbound. *)
Record WebSocket : Type := mkWebSocket {
  ws_url : string;                        (* the address it was constructed with *)
  ws_request_headers : gmap string string;
  readyState : ReadyState;
  ws_sent : list Message;                 (* messages passed to [send], in order *)
  ws_close_calls : list CloseCall         (* every [close] call made, in order *)
}.

Definition connecting_to (address : string) (hdrs : gmap string string) : WebSocket :=
  {| ws_url := address; ws_request_headers := hdrs; readyState := CONNECTING;
     ws_sent := []; ws_close_calls := [] |}.

(** The socket [wss.handleUpgrade] hands to its callback. *)
Definition client_socket : WebSocket :=
  {| ws_url := ""; ws_request_headers := ∅; readyState := OPEN;
     ws_sent := []; ws_close_calls := [] |}.

Definition opened (w : WebSocket) : WebSocket :=
  {| ws_url := ws_url w; ws_request_headers := ws_request_headers w; readyState := OPEN;
     ws_sent := ws_sent w; ws_close_calls := ws_close_calls w |}.

(** [socket.send(message)]: throws while the socket is still connecting,
    transmits when it is open, drops the message otherwise. *)
Definition ws_send (message : Message) : Eff WebSocket unit :=
  λ w, match readyState w with
       | CONNECTING => Thrown "WebSocket is not open: readyState 0 (CONNECTING)" w
       | OPEN => Returned tt {| ws_url := ws_url w; ws_request_headers := ws_request_headers w;
                                readyState := OPEN; ws_sent := ws_sent w ++ [message];
                                ws_close_calls := ws_close_calls w |}
       | _ => Returned tt w
       end.

(** The status codes [ws] lets a close frame carry. *)
Definition isValidStatusCode (code : Z) : bool :=
  ((1000 <=? code) && (code <=? 1014)
   && negb (code =? 1004) && negb (code =? 1005) && negb (code =? 1006))
  || ((3000 <=? code) && (code <=? 4999)).

(** [socket.close(code, reason)]: the call is recorded with the arguments
    it was given.  An open socket starts its closing handshake, and
    building the close frame throws on a code that is not valid in a
    frame (1005 and 1006 among them) and on a reason longer than 123
    bytes. *)
Definition ws_close (code : option Z) (reason : option string) : Eff WebSocket unit :=
  λ w,
    let called :=
      {| ws_url := ws_url w; ws_request_headers := ws_request_headers w;
         readyState := match readyState w with OPEN => CLOSING | st => st end;
         ws_sent := ws_sent w;
         ws_close_calls := ws_close_calls w ++ [{| cc_code := code; cc_reason := reason |}] |} in
    match readyState w, code with
    | OPEN, Some n =>
        if negb (isValidStatusCode n) then
          Thrown "TypeError: First argument must be a valid error code number" called
        else if 123 <? Z.of_nat (String.length (default "" reason)) then
          Thrown "RangeError: The message must not be greater than 123 bytes" called
        else Returned tt called
    | _, _ => Returned tt called
    end.

(** The raw inbound socket of the upgrade request. *)
Record RawSocket : Type := mkRawSocket {
  sock_written : list string;
  sock_destroyed : bool
}.

Definition socket_write (data : string) (s : RawSocket) : RawSocket :=
  {| sock_written := sock_written s ++ [data]; sock_destroyed := sock_destroyed s |}.

Definition socket_destroy (s : RawSocket) : RawSocket :=
  {| sock_written := sock_written s; sock_destroyed := true |}.

Record Relay : Type := mkRelay {
  socket : RawSocket;
  targetWs : option WebSocket;    (* outbound socket, once constructed *)
  ws : option WebSocket           (* client socket, once the upgrade completed *)
}.

Definition new_relay : Relay :=
  {| socket := {| sock_written := []; sock_destroyed := false |};
     targetWs := None; ws := None |}.

Definition set_socket (k : RawSocket) (s : Relay) : Relay :=
  {| socket := k; targetWs := targetWs s; ws := ws s |}.
Definition set_targetWs (w : option WebSocket) (s : Relay) : Relay :=
  {| socket := socket s; targetWs := w; ws := ws s |}.
Definition set_ws (w : option WebSocket) (s : Relay) : Relay :=
  {| socket := socket s; targetWs := targetWs s; ws := w |}.

(** Calls on the raw socket; [socket.write(...); socket.destroy()] is
    [socket_destroy ∘ socket_write ...]. *)
Definition on_socket (f : RawSocket → RawSocket) : Eff Relay unit :=
  modify_state (λ s, set_socket (f (socket s)) s).

(** A method call on a socket of the relay; the callbacks only run while
    the socket exists. *)
Definition on_opt {S T} (proj : S → option T) (upd : option T → S → S)
    (m : Eff T unit) : Eff S unit :=
  λ s, match proj s with
       | Some t => match m t with
                   | Returned a t' => Returned a (upd (Some t') s)
                   | Thrown e t' => Thrown e (upd (Some t') s)
                   end
       | None => Returned tt s
       end.

Definition on_ws (m : Eff WebSocket unit) : Eff Relay unit := on_opt ws set_ws m.
Definition on_targetWs (m : Eff WebSocket unit) : Eff Relay unit := on_opt targetWs set_targetWs m.

(** The events of the two sockets.  A [message] event hands its
    listener the payload as a Buffer and, as second argument, whether the
    message was binary. *)
Inductive RelayEvent : Type :=
| TargetOpen                                   (* [targetWs] emits [open] *)
| TargetMessage (data : Buffer) (isBinary : bool)
| TargetClose (code : Z) (reason : string)
| TargetError (message : string)
| ClientMessage (data : Buffer) (isBinary : bool)
| ClientClose (code : Z) (reason : string)
| ClientError (message : string).

Section Platform.

(** [new URL(s)]: the parsed URL, or [None] when the constructor throws
    (the string is not an absolute URL). *)
Variable URL_new : string → option URL.
(** [JSON.parse]: [None] when it throws a SyntaxError. *)
Variable JSON_parse : string → option jsvalue.
Variable JSON_stringify : jsvalue → string.
(** UTF-8 encoding of a string ([Buffer.byteLength] counts it,
    [proxyReq.write] sends it) and [buffer.toString()]. *)
Variable Buffer_from : string → Buffer.
Variable Buffer_toString : Buffer → string.
(** [httpModule.request(options, callback)] may throw synchronously
    (e.g. on a path or header Node refuses): [Some message] then. *)
Variable request_throws : HttpModule → RequestOptions → option string.
(** [process.env.NODE_ENV === 'development'] *)
Variable development : bool.

(** *** Utility functions *)

Definition construct_URL {S} (s : string) : Eff S URL :=
  match URL_new s with
  | Some u => eff_ret u
  | None => throw "ERR_INVALID_URL"
  end.

Definition valid_protocols : list string := ["http:"; "https:"; "ws:"; "wss:"].

Definition isValidUrl {S} (urlString : string) : Eff S bool :=
  try_catch
    (do url <- construct_URL urlString ;;
     eff_ret (array_includes valid_protocols (protocol url)))
    (λ _, eff_ret false).

(** *** Error bodies *)

Definition details (message : string) : list (string * jsvalue) :=
  if development then [("details", JStr message)] else [].

Definition body_url_required (example : string) : jsvalue :=
  JObj [("error", JStr "Bad Request"); ("message", JStr "URL parameter is required");
        ("example", JStr example)].

Definition body_invalid_url : jsvalue :=
  JObj [("error", JStr "Bad Request"); ("message", JStr "Invalid URL format");
        ("details", JStr "URL must be a valid HTTP or HTTPS URL")].

Definition body_bad_gateway : jsvalue :=
  JObj [("error", JStr "Bad Gateway"); ("message", JStr "Cannot connect to target server");
        ("details", JStr "The target server is not reachable")].

Definition body_gateway_timeout (message : string) : jsvalue :=
  JObj [("error", JStr "Gateway Timeout"); ("message", JStr message)].

Definition body_internal (message error_message : string) : jsvalue :=
  JObj ([("error", JStr "Internal Server Error"); ("message", JStr message)]
        ++ details error_message).

(** *** [proxyRequest]: building the outbound request *)

Definition body_methods : list string := ["POST"; "PUT"; "PATCH"].

Definition sends_body (req : Request) : bool :=
  array_includes body_methods (method req) && body_truthy req.

(** [JSON.stringify(req.body)]; it is evaluated only under [sends_body],
    where the body is defined. *)
Definition bodyData (req : Request) : string :=
  match reqBody req with
  | Some v => JSON_stringify v
  | None => "undefined"
  end.

(** The [headers] literal of [options], in source order; the spread of
    [req.headers['x-custom-header'] && {...}] adds its key only when the
    inbound value is truthy. *)
Definition proxy_headers (req : Request) : gmap string string :=
  let h := headers req in
  let fixed :=
    <["X-Requested-With" := or_else (h !! "x-requested-with") ""]>
    (<["Authorization" := or_else (h !! "authorization") ""]>
    (<["Accept" := or_else (h !! "accept") "application/json"]>
    (<["User-Agent" := "NativeProxy/1.0.0"]>
    (<["Content-Type" := or_else (h !! "content-type") "application/json"]> ∅)))) in
  match h !! "x-custom-header" with
  | Some v => if String.eqb v "" then fixed else <["X-Custom-Header" := v]> fixed
  | None => fixed
  end.

Definition with_content_length (req : Request) (h : gmap string string) : gmap string string :=
  if sends_body req
  then <["Content-Length" := pretty (Z.of_nat (length (Buffer_from (bodyData req))))]> h
  else h.

(** [queryParams]: every entry of [req.query] but [url], in order. *)
Definition queryParams (q : list (string * qvalue)) : URLSearchParams :=
  if (1 <? Z.of_nat (length q)) then
    fold_left (λ params kv,
                 if String.eqb kv.1 "url" then params
                 else URLSearchParams_append kv.1 (qvalue_toString kv.2) params)
              q []
  else [].

Definition append_query (path : string) (params : URLSearchParams) : string :=
  let qs := URLSearchParams_toString params in
  if String.eqb qs "" then path
  else path +:+ (if includes path "?" then "&" else "?") +:+ qs.

Definition proxy_options (req : Request) (parsedUrl : URL) : RequestOptions :=
  {| opt_hostname := hostname parsedUrl;
     opt_port := default_port parsedUrl;
     opt_path := append_query (pathname parsedUrl +:+ search parsedUrl)
                              (queryParams (query req));
     opt_method := method req;
     opt_headers := with_content_length req (proxy_headers req);
     rejectUnauthorized := false;
     timeout := 30000 |}.

(** [httpModule.request(options, ...)] *)
Definition http_request (m : HttpModule) (options : RequestOptions) : Eff Exchange unit :=
  match request_throws m options with
  | Some e => throw e
  | None =>
      modify_state (set_proxyReq (Some {| cr_module := m; cr_options := options;
                                          cr_written := []; cr_ended := false;
                                          cr_destroyed := false |}))
  end.

(** [proxyRequest(req, res)] up to [proxyReq.end()]; the callbacks it
    registers are [proxy_event] below. *)
Definition proxyRequest (req : Request) : Eff Exchange unit :=
  let targetUrl := prop (query req) "url" in
  match targetUrl with
  | None =>
      on_res (res_status 400 ;;; res_json (body_url_required "/proxy?url=https://example.com/api/data"))
  | Some target =>
      if negb (qvalue_truthy target) then
        on_res (res_status 400 ;;; res_json (body_url_required "/proxy?url=https://example.com/api/data"))
      else
        do ok <- isValidUrl (qvalue_toString target) ;;
        if negb ok then on_res (res_status 400 ;;; res_json body_invalid_url)
        else
          try_catch
            (do parsedUrl <- construct_URL (qvalue_toString target) ;;
             let httpModule := getHttpModule (protocol parsedUrl) in
             let options := proxy_options req parsedUrl in
             http_request httpModule options ;;;
             (if sends_body req then on_proxyReq (cr_write (bodyData req)) else eff_ret tt) ;;;
             on_proxyReq cr_end)
            (λ error,
               on_res (res_status 500 ;;;
                       res_json (body_internal "Failed to setup proxy request" error)))
  end.

(** *** [proxyRequest]: the callbacks *)

Fixpoint forEach {S A} (f : A → Eff S unit) (l : list A) : Eff S unit :=
  match l with
  | [] => eff_ret tt
  | a :: rest => f a ;;; forEach f rest
  end.

(** [if (proxyRes.headers[headerName]) res.setHeader(headerName, ...)] *)
Definition copy_header (m : IncomingMessage) (headerName : string) : Eff Response unit :=
  match im_headers m !! headerName with
  | Some v => if String.eqb v "" then eff_ret tt else res_setHeader headerName v
  | None => eff_ret tt
  end.

Definition cors_headers (allow_headers : string) : Eff Response unit :=
  res_setHeader "Access-Control-Allow-Origin" "*" ;;;
  res_setHeader "Access-Control-Allow-Methods" "GET, POST, PUT, DELETE, PATCH, OPTIONS" ;;;
  res_setHeader "Access-Control-Allow-Headers" allow_headers.

Definition proxy_headersToCopy : list string :=
  ["content-type"; "content-length"; "cache-control"; "etag"; "last-modified"].

(** The callback of [httpModule.request]: status, headers, then the
    [data] and [end] listeners are attached ([proxyRes] becomes known). *)
Definition proxy_on_response (m : IncomingMessage) : Eff Exchange unit :=
  on_res (res_status (im_statusCode m) ;;;
          forEach (copy_header m) proxy_headersToCopy ;;;
          cors_headers "Content-Type, Authorization, X-Requested-With, X-Custom-Header") ;;;
  modify_state (set_responseData []) ;;;
  modify_state (set_proxyRes (Some m)).

Definition proxy_on_data (chunk : Buffer) : Eff Exchange unit :=
  modify_state (λ x, set_responseData (responseData x ++ chunk) x).

Definition proxy_on_end (m : IncomingMessage) : Eff Exchange unit :=
  do x <- get_state ;;
  let contentType := or_else (im_headers m !! "content-type") "" in
  if includes contentType "application/json" then
    try_catch
      (match JSON_parse (Buffer_toString (responseData x)) with
       | Some jsonData => on_res (res_json jsonData)
       | None => throw "SyntaxError"
       end)
      (λ _, on_res (res_send (responseData x)))
  else on_res (res_send (responseData x)).

Definition unreachable_code (code : string) : bool :=
  String.eqb code "ENOTFOUND" || String.eqb code "ECONNREFUSED".

(** [proxyReq.on('error', ...)].  The certificate codes are only logged
    and fall through to the 500 response. *)
Definition proxy_on_error (code message : string) : Eff Exchange unit :=
  if unreachable_code code then
    on_res (res_status 502 ;;; res_json body_bad_gateway)
  else if String.eqb code "ETIMEDOUT" then
    on_res (res_status 504 ;;;
            res_json (body_gateway_timeout "Request to target server timed out"))
  else
    on_res (res_status 500 ;;; res_json (body_internal "Failed to proxy request" message)).

(** [proxyReq.on('timeout', ...)] *)
Definition proxy_on_timeout : Eff Exchange unit :=
  on_proxyReq cr_destroy ;;;
  do x <- get_state ;;
  if negb (headersSent (res x)) then
    on_res (res_status 504 ;;;
            res_json (body_gateway_timeout "Request to target server timed out"))
  else eff_ret tt.

(** Delivery of one event to the listeners [proxyRequest] registered.
    [data] and [end] have a listener only once the response callback
    has run.  [proxyRes] has no [error] listener here: when the upstream
    body breaks off, Node reports the error to such a listener only, so
    nothing runs. *)
Definition proxy_event (e : Event) : Eff Exchange unit :=
  do x <- get_state ;;
  match e with
  | EvResponse m => proxy_on_response m
  | EvData chunk => match proxyRes x with Some _ => proxy_on_data chunk | None => eff_ret tt end
  | EvEnd => match proxyRes x with Some m => proxy_on_end m | None => eff_ret tt end
  | EvStreamError _ => eff_ret tt
  | EvError code message => proxy_on_error code message
  | EvTimeout => proxy_on_timeout
  end.

(** Events are handled one after the other; an exception that leaves a
    listener is uncaught and ends the run. *)
Fixpoint deliver {S} (handle : Event → Eff S unit) (events : list Event) : Eff S unit :=
  match events with
  | [] => eff_ret tt
  | e :: rest => handle e ;;; deliver handle rest
  end.

(** *** [app.all('/download', ...)] *)

Definition download_headers (req : Request) : gmap string string :=
  let h := headers req in
  <["Range" := or_else (h !! "range") ""]>
  (<["Authorization" := or_else (h !! "authorization") ""]>
  (<["Accept" := "*/*"]>
  (<["User-Agent" := "NativeProxy/1.0.0"]> ∅))).

Definition download_options (req : Request) (parsedUrl : URL) : RequestOptions :=
  {| opt_hostname := hostname parsedUrl;
     opt_port := default_port parsedUrl;
     opt_path := pathname parsedUrl +:+ search parsedUrl;
     opt_method := method req;
     opt_headers := download_headers req;
     rejectUnauthorized := false;
     timeout := 60000 |}.

Definition download (req : Request) : Eff Exchange unit :=
  let targetUrl := prop (query req) "url" in
  match targetUrl with
  | None =>
      on_res (res_status 400 ;;;
              res_json (body_url_required "/download?url=https://example.com/largefile.zip"))
  | Some target =>
      if negb (qvalue_truthy target) then
        on_res (res_status 400 ;;;
                res_json (body_url_required "/download?url=https://example.com/largefile.zip"))
      else
        do ok <- isValidUrl (qvalue_toString target) ;;
        if negb ok then on_res (res_status 400 ;;; res_json body_invalid_url)
        else
          try_catch
            (do parsedUrl <- construct_URL (qvalue_toString target) ;;
             let httpModule := getHttpModule (protocol parsedUrl) in
             http_request httpModule (download_options req parsedUrl) ;;;
             on_proxyReq cr_end)
            (λ error,
               on_res (res_status 500 ;;;
                       res_json (body_internal "Failed to setup download request" error)))
  end.

Definition download_headersToCopy : list string :=
  ["content-type"; "content-length"; "content-disposition"; "accept-ranges";
   "etag"; "last-modified"; "cache-control"].

Definition download_on_response (m : IncomingMessage) : Eff Exchange unit :=
  on_res (res_status (im_statusCode m) ;;;
          forEach (copy_header m) download_headersToCopy ;;;
          cors_headers "Content-Type, Authorization, X-Requested-With, X-Custom-Header, Range") ;;;
  modify_state (set_downloadedBytes 0) ;;;
  modify_state (set_proxyRes (Some m)).

(** [downloadedBytes += chunk.length; res.write(chunk)]; the progress
    line that follows is only logged. *)
Definition download_on_data (chunk : Buffer) : Eff Exchange unit :=
  modify_state (λ x, set_downloadedBytes (downloadedBytes x + Z.of_nat (length chunk)) x) ;;;
  on_res (res_write chunk).

Definition download_on_end : Eff Exchange unit := on_res res_end.

Definition body_download_error : jsvalue :=
  JObj [("error", JStr "Download Error");
        ("message", JStr "Failed to stream file from target server")].

(** [proxyRes.on('error', ...)] *)
Definition download_on_stream_error : Eff Exchange unit :=
  do x <- get_state ;;
  if negb (headersSent (res x)) then
    on_res (res_status 500 ;;; res_json body_download_error)
  else eff_ret tt.

Definition download_on_error (code message : string) : Eff Exchange unit :=
  if unreachable_code code then
    on_res (res_status 502 ;;;
            res_json (JObj [("error", JStr "Bad Gateway");
                            ("message", JStr "Cannot connect to target server")]))
  else if String.eqb code "ETIMEDOUT" then
    on_res (res_status 504 ;;; res_json (body_gateway_timeout "Download request timed out"))
  else
    on_res (res_status 500 ;;;
            res_json (body_internal "Failed to setup download request" message)).

Definition download_on_timeout : Eff Exchange unit :=
  on_proxyReq cr_destroy ;;;
  do x <- get_state ;;
  if negb (headersSent (res x)) then
    on_res (res_status 504 ;;; res_json (body_gateway_timeout "Download request timed out"))
  else eff_ret tt.

Definition download_event (e : Event) : Eff Exchange unit :=
  do x <- get_state ;;
  match e with
  | EvResponse m => download_on_response m
  | EvData chunk => match proxyRes x with Some _ => download_on_data chunk | None => eff_ret tt end
  | EvEnd => match proxyRes x with Some _ => download_on_end | None => eff_ret tt end
  | EvStreamError _ =>
      match proxyRes x with Some _ => download_on_stream_error | None => eff_ret tt end
  | EvError code message => download_on_error code message
  | EvTimeout => download_on_timeout
  end.

(** *** [app.get('/ws-proxy', ...)] *)

(** [process.env.PORT || 3000], as spliced into the instructions. *)
Variable PORT : string.

(** [targetUrl.match(/^wss?:\/\//)] *)
Definition matches_ws_scheme (targetUrl : string) : bool :=
  String.prefix "ws://" targetUrl || String.prefix "wss://" targetUrl.

Definition body_ws_instructions (targetUrl : string) : jsvalue :=
  JObj [("message", JStr "WebSocket proxy endpoint");
        ("instructions",
         JArr [JStr ("Use WebSocket client to connect to: ws://localhost:" +:+ PORT +:+ "/ws-proxy");
               JStr ("Include target URL in header: x-target-url: " +:+ targetUrl);
               JStr "Or use WebSocket upgrade directly to target URL"]);
        ("examples",
         JArr [JStr ("const ws = new WebSocket(" +:+ dquote +:+ "ws://localhost:" +:+ PORT
                     +:+ "/ws-proxy" +:+ dquote +:+ ");");
               JStr ("ws.onopen = () => ws.send(JSON.stringify({ target: " +:+ dquote
                     +:+ targetUrl +:+ dquote +:+ " }));")])].

Definition body_ws_invalid : jsvalue :=
  JObj [("error", JStr "Bad Request"); ("message", JStr "Invalid WebSocket URL format");
        ("details", JStr "URL must be a valid WebSocket URL (ws:// or wss://)")].

Definition body_ws_required : jsvalue :=
  JObj [("error", JStr "Bad Request"); ("message", JStr "WebSocket URL parameter is required");
        ("example", JStr "/ws-proxy?url=wss://example.com/socket")].

(** The route answers with instructions; it opens no connection.  A
    query value that is not a string has no [match] method. *)
Definition ws_proxy_info (req : Request) : Eff Response unit :=
  match prop (query req) "url" with
  | None => res_status 400 ;;; res_json body_ws_required
  | Some target =>
      if negb (qvalue_truthy target) then res_status 400 ;;; res_json body_ws_required
      else
        do ok <- isValidUrl (qvalue_toString target) ;;
        if negb ok then res_status 400 ;;; res_json body_ws_invalid
        else match target with
             | QStr targetUrl =>
                 if negb (matches_ws_scheme targetUrl)
                 then res_status 400 ;;; res_json body_ws_invalid
                 else res_json (body_ws_instructions targetUrl)
             | _ => throw "TypeError: targetUrl.match is not a function"
             end
  end.

(** *** [server.on('upgrade', ...)]: the WebSocket relay *)

(** [new WebSocket(address, options)] throws on an address the [ws]
    library refuses: [Some message] then. *)
Variable WebSocket_throws : string → option string.
(** [new Date().toISOString()] when the relay opens. *)
Variable now : string.

Definition ws_headers (request : Request) : gmap string string :=
  let h := headers request in
  <["Cookie" := or_else (h !! "cookie") ""]>
  (<["Authorization" := or_else (h !! "authorization") ""]>
  (<["User-Agent" := "NativeProxy/1.0.0"]> ∅)).

Definition new_WebSocket (address : string) (hdrs : gmap string string) : Eff Relay unit :=
  match WebSocket_throws address with
  | Some e => throw e
  | None => modify_state (set_targetWs (Some (connecting_to address hdrs)))
  end.

Definition on_upgrade (request : Request) : Eff Relay unit :=
  match headers request !! "x-target-url" with
  | None => on_socket (socket_destroy ∘ socket_write (status_line "400 Bad Request"))
  | Some targetUrl =>
      if String.eqb targetUrl "" then
        on_socket (socket_destroy ∘ socket_write (status_line "400 Bad Request"))
      else
        try_catch
          (new_WebSocket targetUrl (ws_headers request))
          (λ _, on_socket (socket_destroy
                           ∘ socket_write (status_line "500 Internal Server Error")))
  end.

Definition connected_message (targetUrl : string) : Message :=
  MText (JSON_stringify (JObj [("type", JStr "connected"); ("target", JStr targetUrl);
                               ("timestamp", JStr now)])).

(** [targetWs.on('open', ...)]: the upgrade completes, the relay
    listeners are attached, the client is told it is connected. *)
Definition relay_on_open : Eff Relay unit :=
  do s <- get_state ;;
  modify_state (set_targetWs (opened <$> targetWs s)) ;;;
  modify_state (set_ws (Some client_socket)) ;;;
  on_ws (ws_send (connected_message (from_option ws_url "" (targetWs s)))).

(** The listener attached to [targetWs] before it opened; it stays
    attached for the life of the socket. *)
Definition connect_on_error : Eff Relay unit :=
  on_socket (socket_destroy ∘ socket_write (status_line "502 Bad Gateway")).

(** [ws.on('message', (message) => { targetWs.send(message); ... })]: the
    listener takes the payload alone and sends that Buffer. *)
Definition relay_on_client_message (message : Buffer) : Eff Relay unit :=
  try_catch (on_targetWs (ws_send (MBinary message)))
            (λ _, on_ws (ws_close (Some 1011) (Some "Proxy error"))).

Definition relay_on_target_message (message : Buffer) : Eff Relay unit :=
  try_catch (on_ws (ws_send (MBinary message)))
            (λ _, on_targetWs (ws_close None None)).

(** [ws.on('close', (code, reason) => { ...; targetWs.close(); })] *)
Definition relay_on_client_close (code : Z) (reason : string) : Eff Relay unit :=
  on_targetWs (ws_close None None).

(** [targetWs.on('close', (code, reason) => { ...; ws.close(code, reason); })] *)
Definition relay_on_target_close (code : Z) (reason : string) : Eff Relay unit :=
  on_ws (ws_close (Some code) (Some reason)).

(** [ws.on('error', ...)] *)
Definition relay_on_client_error (message : string) : Eff Relay unit :=
  on_targetWs (ws_close None None).

(** [targetWs.on('error', ...)] of the open relay *)
Definition relay_on_target_error (message : string) : Eff Relay unit :=
  on_ws (ws_close (Some 1011) (Some "Target WebSocket error")).

(** Delivery of one event.  The relay listeners exist from the moment
    the client socket [ws] does; on a target error both the early
    listener and the relay listener run, in registration order. *)
Definition relay_event (e : RelayEvent) : Eff Relay unit :=
  do s <- get_state ;;
  match targetWs s, ws s with
  | None, _ => eff_ret tt
  | Some _, None =>
      match e with
      | TargetOpen => relay_on_open
      | TargetError _ => connect_on_error
      | _ => eff_ret tt
      end
  | Some _, Some _ =>
      match e with
      | TargetOpen => eff_ret tt
      | ClientMessage m _ => relay_on_client_message m
      | TargetMessage m _ => relay_on_target_message m
      | ClientClose c r => relay_on_client_close c r
      | TargetClose c r => relay_on_target_close c r
      | ClientError m => relay_on_client_error m
      | TargetError m => connect_on_error ;;; relay_on_target_error m
      end
  end.

End Platform.


(** * Vocabulary of the properties *)

(** The response after [res.status(code)] alone. *)
Definition with_status (code : Z) (r : Response) : Response :=
  {| statusCode := code; resHeaders := resHeaders r; head := head r;
     out := out r; finished := finished r;
     req_method := req_method r; req_validators := req_validators r |}.

(** The response after [res.status(code).json(...)] or [.send(...)] went
    out, body included, on a response that had sent nothing. *)
Definition completed (code : Z) (p : Payload) (r : Response) : Response :=
  {| statusCode := code; resHeaders := resHeaders r;
     head := Some (code, resHeaders r); out := out r ++ [p]; finished := true;
     req_method := req_method r; req_validators := req_validators r |}.

(** An exchange whose outbound request [c] is in flight and whose caller
    has received nothing; the inbound request is that of
    [fresh_response]. *)
Definition in_flight (c : ClientRequest) : Exchange :=
  set_proxyReq (Some c) new_exchange.

(** The same for an inbound request with the given method and
    validators. *)
Definition in_flight_for (inbound_method : string)
    (validators : gmap string string → Payload → bool) (c : ClientRequest) : Exchange :=
  set_res (response_for inbound_method validators) (in_flight c).

(** Sample inputs. *)
Definition example_url : URL :=
  {| protocol := "http:"; hostname := "example.com"; port := "";
     pathname := "/echo"; search := "" |}.

Definition example_URL_new (s : string) : option URL :=
  if String.eqb s "http://example.com/echo" then Some example_url else None.

Definition example_get : Request :=
  {| method := "GET"; headers := ∅;
     query := [("url", QStr "http://example.com/echo")]; reqBody := None |}.

Definition example_options : RequestOptions :=
  {| opt_hostname := "example.com"; opt_port := PortNum 80; opt_path := "/echo";
     opt_method := "GET"; opt_headers := ∅; rejectUnauthorized := false; timeout := 30000 |}.

Definition example_clientRequest : ClientRequest :=
  {| cr_module := mod_http; cr_options := example_options; cr_written := [];
     cr_ended := true; cr_destroyed := false |}.


(** The [close] calls a socket of the relay has received. *)
Definition close_calls (w : option WebSocket) : list CloseCall :=
  from_option ws_close_calls [] w.

(** A relay whose two sockets exist. *)
Definition bridged (k : RawSocket) (t c : WebSocket) : Relay :=
  {| socket := k; targetWs := Some t; ws := Some c |}.

(** An upgrade request that names an http target. *)
Definition example_upgrade : Request :=
  {| method := "GET"; headers := {[ "x-target-url" := "http://example.com/echo" ]};
     query := []; reqBody := None |}.


(** The response the information route leaves on a fresh [res]. *)
Definition res_of_info (URL_new : string → option URL) (PORT : string) (req : Request) : Response :=
  final_state (ws_proxy_info URL_new PORT req fresh_response).


(** The parameters the caller supplied besides [url], values as strings,
    in the order of [req.query]. *)
Definition caller_params (q : list (string * qvalue)) : URLSearchParams :=
  (λ kv, (kv.1, qvalue_toString kv.2)) <$> filter (λ kv, kv.1 ≠ "url") q.

(** How many of the appended pairs carry the name [k]. *)
Definition occurrences (k : string) (p : URLSearchParams) : nat :=
  length (filter (λ kv, kv.1 = k) p).

Definition example_search : Request :=
  {| method := "GET"; headers := ∅;
     query := [("url", QStr "http://example.com/echo"); ("page", QStr "2");
               ("tag", QArr [QStr "a"; QStr "b c"])];
     reqBody := None |}.

(** [?url=...&tag=a&tag=b] and [?url=...&f[x]=1] as the query parser
    hands them over: a repeated key as one entry holding an array, a
    bracketed key as one entry holding an object. *)
Definition example_repeated : Request :=
  {| method := "GET"; headers := ∅;
     query := [("url", QStr "http://example.com/echo"); ("tag", QArr [QStr "a"; QStr "b"])];
     reqBody := None |}.

Definition example_nested : Request :=
  {| method := "GET"; headers := ∅;
     query := [("url", QStr "http://example.com/echo"); ("f", QObj [("x", QStr "1")])];
     reqBody := None |}.


(** The headers of the upstream response [m] that the callbacks copy:
    those of [names] whose upstream value is truthy, set on top of [h]. *)
Definition copied_headers (m : IncomingMessage) (names : list string)
    (h : gmap string string) : gmap string string :=
  foldl (λ acc name,
           match im_headers m !! name with
           | Some v => if String.eqb v "" then acc else <[name := v]> acc
           | None => acc
           end) h names.

Definition with_cors (allow_headers : string) (h : gmap string string) : gmap string string :=
  <["Access-Control-Allow-Headers" := allow_headers]>
  (<["Access-Control-Allow-Methods" := "GET, POST, PUT, DELETE, PATCH, OPTIONS"]>
  (<["Access-Control-Allow-Origin" := "*"]> h)).

Definition with_headers (h : gmap string string) (r : Response) : Response :=
  {| statusCode := statusCode r; resHeaders := h; head := head r;
     out := out r; finished := finished r;
     req_method := req_method r; req_validators := req_validators r |}.

(** The headers the downloader has set on [res] when the response
    callback returns. *)
Definition download_response_headers (m : IncomingMessage) : gmap string string :=
  with_cors "Content-Type, Authorization, X-Requested-With, X-Custom-Header, Range"
            (copied_headers m download_headersToCopy ∅).

(** The headers the forwarder has set on [res] when the response callback
    returns. *)
Definition proxy_response_headers (m : IncomingMessage) : gmap string string :=
  with_cors "Content-Type, Authorization, X-Requested-With, X-Custom-Header"
            (copied_headers m proxy_headersToCopy ∅).

(** The caller's response [r] once the forwarder's response callback has
    run for the upstream response [m]: nothing is sent yet. *)
Definition announced (m : IncomingMessage) (r : Response) : Response :=
  with_headers (with_cors "Content-Type, Authorization, X-Requested-With, X-Custom-Header"
                          (copied_headers m proxy_headersToCopy (resHeaders r)))
               (with_status (im_statusCode m) r).

(** A response, first [fresh_response], on which [chunks] have been
    written, one [res.write] each. *)
Definition streamed (status : Z) (h : gmap string string) (chunks : list Buffer) : Response :=
  {| statusCode := status; resHeaders := h;
     head := match chunks with [] => None | _ => Some (status, h) end;
     out := PBuffer <$> chunks; finished := false;
     req_method := req_method fresh_response;
     req_validators := req_validators fresh_response |}.

Definition example_download : IncomingMessage :=
  {| im_statusCode := 200;
     im_headers := {[ "content-length" := "5"; "content-type" := "application/zip";
                      "server" := "nginx" ]} |}.


(** An exchange whose upstream response [m] has been announced: [r] is
    the caller's response, [buffered] the forwarder's [responseData] and
    [n] the downloader's [downloadedBytes]. *)
Definition receiving (c : ClientRequest) (m : IncomingMessage) (buffered : Buffer) (n : Z)
    (r : Response) : Exchange :=
  {| res := r; proxyReq := Some c; proxyRes := Some m;
     responseData := buffered; downloadedBytes := n |}.

(** A streamed response after [res.end()]. *)
Definition ended (status : Z) (h : gmap string string) (chunks : list Buffer) : Response :=
  {| statusCode := status; resHeaders := h; head := Some (status, h);
     out := PBuffer <$> chunks; finished := true;
     req_method := req_method fresh_response;
     req_validators := req_validators fresh_response |}.

Definition total_length (chunks : list Buffer) : Z := Z.of_nat (length (concat chunks)).

Definition example_chunks : list Buffer := [[x68; x65]%byte; [x6c; x6c; x6f]%byte].


(** What [proxy_on_end] hands to the caller for an upstream response [m]
    with body [body]: the decoded value when the content type contains
    [application/json] and the body parses, the raw bytes otherwise. *)
Definition forwarded_body (JSON_parse : string → option jsvalue)
    (Buffer_toString : Buffer → string) (m : IncomingMessage) (body : Buffer) : Payload :=
  if includes (or_else (im_headers m !! "content-type") "") "application/json" then
    match JSON_parse (Buffer_toString body) with
    | Some v => PJson v
    | None => PBuffer body
    end
  else PBuffer body.

(** The outbound request [proxyRequest] leaves in flight for [req]. *)
Definition started_request (JSON_stringify : jsvalue → string) (Buffer_from : string → Buffer)
    (req : Request) (u : URL) : ClientRequest :=
  {| cr_module := getHttpModule (protocol u);
     cr_options := proxy_options JSON_stringify Buffer_from req u;
     cr_written := if sends_body req then [bodyData JSON_stringify req] else [];
     cr_ended := true; cr_destroyed := false |}.

(** Sample JSON traffic: one payload and its text. *)
Definition example_payload : jsvalue := JObj [("user", JStr "ada"); ("id", JNum 7)].

Definition example_json_text : string :=
  "{" +:+ dquote +:+ "user" +:+ dquote +:+ ":" +:+ dquote +:+ "ada" +:+ dquote +:+ ","
      +:+ dquote +:+ "id" +:+ dquote +:+ ":7}".

Definition example_JSON_stringify (v : jsvalue) : string := example_json_text.

Definition example_JSON_parse (s : string) : option jsvalue :=
  if String.eqb s example_json_text then Some example_payload else None.

Definition example_post : Request :=
  {| method := "POST"; headers := {[ "content-type" := "application/json" ]};
     query := [("url", QStr "http://example.com/echo")]; reqBody := Some example_payload |}.

Definition example_echo : IncomingMessage :=
  {| im_statusCode := 200; im_headers := {[ "content-type" := "application/json; charset=utf-8" ]} |}.

(** An upstream JSON response that carries an entity tag, and the
    validators of an inbound request whose If-None-Match is that tag. *)
Definition example_etag : string := dquote +:+ "33a64df5" +:+ dquote.

Definition example_tagged : IncomingMessage :=
  {| im_statusCode := 200;
     im_headers := {[ "content-type" := "application/json"; "etag" := example_etag ]} |}.

Definition if_none_match (tag : string) : gmap string string → Payload → bool :=
  λ h _, bool_decide (h !! "etag" = Some tag).


(** The names of the CORS headers both response callbacks add. *)
Definition cors_names : list string :=
  ["Access-Control-Allow-Origin"; "Access-Control-Allow-Methods"; "Access-Control-Allow-Headers"].


(** * Routes and vocabulary beyond the forwarder's core *)

(** [app.use('/api/*', ...)]: the target is the fixed host followed by
    [req.originalUrl]; [req.query] is replaced by [{ url: targetUrl }] for
    the synchronous call of [proxyRequest] and restored afterwards.  No
    callback reads [req.query], so the restoration changes nothing the
    exchange can observe. *)
Definition api_target (originalUrl : string) : string :=
  "https://119.13.101.169" +:+ originalUrl.

(** [req] while [req.query = { url: targetUrl }] is in place. *)
Definition api_request (originalUrl : string) (req : Request) : Request :=
  {| method := method req; headers := headers req;
     query := [("url", QStr (api_target originalUrl))]; reqBody := reqBody req |}.

Definition api_route
    (URL_new : string → option URL) (JSON_stringify : jsvalue → string)
    (Buffer_from : string → Buffer)
    (request_throws : HttpModule → RequestOptions → option string) (development : bool)
    (originalUrl : string) (req : Request) : Eff Exchange unit :=
  proxyRequest URL_new JSON_stringify Buffer_from request_throws development
               (api_request originalUrl req).

(** Relay events are handled one after the other, like [deliver]. *)
Fixpoint relay_deliver {S} (handle : RelayEvent → Eff S unit) (events : list RelayEvent)
    : Eff S unit :=
  match events with
  | [] => eff_ret tt
  | e :: rest => handle e ;;; relay_deliver handle rest
  end.

(** The parsed target of a request whose [url] parameter passes both
    validation steps of [proxyRequest] and of the download route. *)
Definition valid_target (URL_new : string → option URL) (req : Request) : option URL :=
  match prop (query req) "url" with
  | Some target =>
      if qvalue_truthy target then
        match URL_new (qvalue_toString target) with
        | Some u => if array_includes valid_protocols (protocol u) then Some u else None
        | None => None
        end
      else None
  | None => None
  end.

(** The outbound request the download route leaves in flight. *)
Definition download_request (req : Request) (u : URL) : ClientRequest :=
  {| cr_module := getHttpModule (protocol u); cr_options := download_options req u;
     cr_written := []; cr_ended := true; cr_destroyed := false |}.

(** The header names the two option literals can hold. *)
Definition proxy_header_names : list string :=
  ["Content-Type"; "User-Agent"; "Accept"; "Authorization"; "X-Requested-With";
   "X-Custom-Header"; "Content-Length"].

Definition download_header_names : list string :=
  ["User-Agent"; "Accept"; "Authorization"; "Range"].

(** The payloads of each side's messages among a list of relay events,
    in order. *)
Definition from_client (events : list RelayEvent) : list Buffer :=
  omap (λ e, match e with ClientMessage data _ => Some data | _ => None end) events.

Definition from_target (events : list RelayEvent) : list Buffer :=
  omap (λ e, match e with TargetMessage data _ => Some data | _ => None end) events.

Definition is_message (e : RelayEvent) : bool :=
  match e with
  | ClientMessage _ _ | TargetMessage _ _ => true
  | _ => false
  end.

(** A socket to which [msgs] more have been sent. *)
Definition with_sent (msgs : list Message) (w : WebSocket) : WebSocket :=
  {| ws_url := ws_url w; ws_request_headers := ws_request_headers w;
     readyState := readyState w; ws_sent := ws_sent w ++ msgs;
     ws_close_calls := ws_close_calls w |}.

Definition raw_socket_refused (status : string) : RawSocket :=
  {| sock_written := [status_line status]; sock_destroyed := true |}.

(** More sample inputs. *)
Definition example_wss_url : URL :=
  {| protocol := "wss:"; hostname := "example.com"; port := "";
     pathname := "/socket"; search := "" |}.

Definition example_api_url : URL :=
  {| protocol := "https:"; hostname := "119.13.101.169"; port := "";
     pathname := "/api/v1/items"; search := "?page=2" |}.

Definition example_URL_new2 (s : string) : option URL :=
  if String.eqb s "wss://example.com/socket" then Some example_wss_url
  else if String.eqb s "https://119.13.101.169/api/v1/items?page=2" then Some example_api_url
  else example_URL_new s.


Definition example_api_request : Request :=
  {| method := "PUT"; headers := {[ "authorization" := "Bearer t" ]};
     query := [("page", QStr "2")]; reqBody := Some example_payload |}.

Definition example_ws_upgrade : Request :=
  {| method := "GET";
     headers := {[ "x-target-url" := "wss://example.com/socket"; "cookie" := "sid=1" ]};
     query := []; reqBody := None |}.

Definition example_open_socket : WebSocket :=
  {| ws_url := "wss://example.com/socket"; ws_request_headers := ∅; readyState := OPEN;
     ws_sent := []; ws_close_calls := [] |}.

(** * Properties *)

(** ** The response object *)

Lemma res_complete_unsent (p : Payload) (r : Response) :
  headersSent r = false → res_complete p r = Returned tt (express_send p r).
Proof. intros H. unfold res_complete. by rewrite H. Qed.

Lemma status_json_unsent (code : Z) (b : jsvalue) (r : Response) :
  headersSent r = false →
  (res_status code ;;; res_json b) r
  = Returned tt (express_send (PJson b) (with_status code r)).
Proof.
  unfold headersSent, eff_bind, res_status, res_json, res_complete, modify_state,
    with_status, headersSent.
  cbn. destruct (head r); [discriminate | reflexivity].
Qed.

(** An answer that is not fresh, keeps its body and does not answer a
    HEAD goes out whole under the status set. *)
Lemma express_send_whole (p : Payload) (r : Response) :
  req_fresh p r = false → bodiless (statusCode r) = false → req_method r ≠ "HEAD" →
  express_send p r = completed (statusCode r) p r.
Proof.
  intros Hfresh Hbody Hhead. unfold express_send, completed. rewrite Hfresh, Hbody.
  apply String.eqb_neq in Hhead. rewrite Hhead. cbn [orb].
  unfold entity_headers_removed. unfold bodiless in Hbody.
  apply orb_false_iff in Hbody as [Hbody H304]. apply orb_false_iff in Hbody as [H204 H205].
  by rewrite H204, H304, H205.
Qed.

(** A fresh request is answered 304 without a body. *)
Lemma express_send_fresh (p : Payload) (r : Response) :
  req_fresh p r = true →
  sent_status (express_send p r) = Some 304 ∧ out (express_send p r) = out r ∧
  finished (express_send p r) = true.
Proof. intros Hfresh. unfold express_send. by rewrite Hfresh. Qed.

(** Whatever the inbound request, an answer with an error status goes out
    under that status, with the headers set so far, and ends the
    response. *)
Lemma express_send_error (code : Z) (p : Payload) (r : Response) :
  success_status code = false → bodiless code = false →
  head (express_send p (with_status code r)) = Some (code, resHeaders r) ∧
  finished (express_send p (with_status code r)) = true.
Proof.
  intros Hsuccess Hbody. unfold express_send, req_fresh. cbn [with_status statusCode resHeaders].
  rewrite Hsuccess. cbn [andb]. unfold entity_headers_removed. unfold bodiless in Hbody.
  apply orb_false_iff in Hbody as [Hbody H304]. apply orb_false_iff in Hbody as [H204 H205].
  by rewrite H204, H304, H205.
Qed.

Lemma status_json_sent (code : Z) (b : jsvalue) (r : Response) :
  headersSent r = true →
  (res_status code ;;; res_json b) r = Thrown ERR_HTTP_HEADERS_SENT (with_status code r).
Proof.
  unfold headersSent, eff_bind, res_status, res_json, res_complete, modify_state,
    with_status, headersSent.
  cbn. destruct (head r); [reflexivity | discriminate].
Qed.

Lemma respond_unsent (code : Z) (b : jsvalue) (x : Exchange) :
  headersSent (res x) = false →
  on_res (res_status code ;;; res_json b) x
  = Returned tt (set_res (express_send (PJson b) (with_status code (res x))) x).
Proof. intros H. unfold on_res, zoom. by rewrite status_json_unsent. Qed.

Lemma respond_sent (code : Z) (b : jsvalue) (x : Exchange) :
  headersSent (res x) = true →
  on_res (res_status code ;;; res_json b) x
  = Thrown ERR_HTTP_HEADERS_SENT (set_res (with_status code (res x)) x).
Proof. intros H. unfold on_res, zoom. by rewrite status_json_sent. Qed.

Lemma array_includes_elem_of (l : list string) (x : string) :
  array_includes l x = true ↔ x ∈ l.
Proof.
  unfold array_includes. rewrite existsb_exists, list_elem_of_In. split.
  - intros (y & Hy & Heq). apply String.eqb_eq in Heq. by subst.
  - intros Hx. exists x. split; [done | apply String.eqb_refl].
Qed.

(** ** URL Validator *)

Lemma isValidUrl_run (URL_new : string → option URL) {S : Type} (s : string) (st : S) :
  isValidUrl URL_new s st
  = Returned (match URL_new s with
              | Some u => array_includes valid_protocols (protocol u)
              | None => false
              end) st.
Proof.
  unfold isValidUrl, try_catch, eff_bind, construct_URL.
  destruct (URL_new s); reflexivity.
Qed.

(** C2.  [isValidUrl] returns on every string, leaves the state alone and
    lets no exception escape; its result is [true] exactly when the string
    parses as an absolute URL ([new URL] without a base) whose scheme is
    http, https, ws or wss.  A string that does not parse, among them one
    without a scheme, and a scheme outside the set give [false]. *)
Theorem isValidUrl_iff (URL_new : string → option URL) (S : Type) (s : string) (st : S) :
  ∃ b : bool,
    isValidUrl URL_new s st = Returned b st ∧
    (b = true ↔
       ∃ (u : URL) (scheme : string),
         URL_new s = Some u ∧ protocol u = scheme +:+ ":" ∧
         scheme ∈ ["http"; "https"; "ws"; "wss"]).
Proof.
  rewrite isValidUrl_run. eexists; split; [reflexivity |].
  destruct (URL_new s) as [u |].
  - rewrite array_includes_elem_of. unfold valid_protocols. split.
    + intros Hin. exists u.
      repeat (apply elem_of_cons in Hin as [-> | Hin]);
        [exists "http" | exists "https" | exists "ws" | exists "wss" | by apply elem_of_nil in Hin];
        (split; [done | split; [done | set_solver]]).
    + intros (u' & scheme & [= <-] & -> & Hin).
      repeat (apply elem_of_cons in Hin as [-> | Hin]); [set_solver .. | by apply elem_of_nil in Hin].
  - split; [discriminate | intros (? & ? & ? & _); discriminate].
Qed.

(** ** Request Forwarder: failures before a response *)


Lemma proxy_on_timeout_unsent (x : Exchange) :
  headersSent (res x) = false →
  proxy_on_timeout x
  = Returned tt
      (set_res (express_send
                  (PJson (body_gateway_timeout "Request to target server timed out"))
                  (with_status 504 (res x)))
               (set_proxyReq (cr_destroy <$> proxyReq x) x)).
Proof.
  intros Hfresh. unfold proxy_on_timeout, eff_bind at 1, on_proxyReq, modify_state.
  unfold eff_bind at 1, get_state. cbn [set_proxyReq res].
  rewrite Hfresh. cbn [negb]. by rewrite respond_unsent.
Qed.

Lemma proxy_on_timeout_sent (x : Exchange) :
  headersSent (res x) = true →
  proxy_on_timeout x = Returned tt (set_proxyReq (cr_destroy <$> proxyReq x) x).
Proof.
  intros Hsent. unfold proxy_on_timeout, eff_bind at 1, on_proxyReq, modify_state.
  unfold eff_bind at 1, get_state. cbn [set_proxyReq res].
  by rewrite Hsent.
Qed.





(** ** Request Forwarder: a second terminal event *)

(** C5, at the input on which the code departs from it.  The [timeout]
    listener answers 504 and destroys the outbound request; Node reports
    the destroyed request with an [error] event (ECONNRESET, socket hang
    up).  The [error] listener has no [res.headersSent] test: it sets
    status 500 on the response already sent and calls [res.json], which
    throws ERR_HTTP_HEADERS_SENT out of the listener.  The caller still
    saw the single 504 response, but the later event is not ignored. *)
Theorem error_after_timeout_not_ignored
    (JSON_parse : string → option jsvalue) (Buffer_toString : Buffer → string)
    (development : bool) (c : ClientRequest) :
  let handle := proxy_event JSON_parse Buffer_toString development in
  let x1 := final_state (deliver handle [EvTimeout] (in_flight c)) in
  sent_status (res x1) = Some 504 ∧
  outbound_destroyed x1 = true ∧
  deliver handle [EvTimeout; EvError "ECONNRESET" "socket hang up"] (in_flight c)
  = Thrown ERR_HTTP_HEADERS_SENT (set_res (with_status 500 (res x1)) x1) ∧
  statusCode (with_status 500 (res x1)) ≠ statusCode (res x1).
Proof.
  cbn. repeat split; done.
Qed.

(** The guarded listener, by contrast, leaves a sent response alone. *)
Lemma timeout_after_response_ignored (x : Exchange) :
  headersSent (res x) = true →
  res (final_state (proxy_on_timeout x)) = res x.
Proof. intros H. by rewrite proxy_on_timeout_sent. Qed.

(** ** WebSocket relay: closure propagation *)

(** A [close] call is on record whether it returns or throws. *)
Lemma ws_close_recorded (code : option Z) (reason : option string) (w : WebSocket) :
  ws_close_calls (final_state (ws_close code reason w))
  = ws_close_calls w ++ [{| cc_code := code; cc_reason := reason |}].
Proof.
  unfold ws_close. destruct (readyState w), code as [n |]; try reflexivity.
  destruct (negb (isValidStatusCode n)); [reflexivity |].
  by destruct (123 <? Z.of_nat (String.length (default "" reason))).
Qed.

Ltac close_recorded :=
  match goal with
  | |- context [ws_close ?code ?reason ?w] =>
      let H := fresh "Hrecorded" in
      pose proof (ws_close_recorded code reason w) as H;
      destruct (ws_close code reason w); first [exact H | reflexivity]
  end.

(** C4, at the inputs on which the code departs from it.  In an open
    relay the target's [close] event closes the client with the same code
    and reason, and the target's [error] event closes the client with
    1011 (after the listener left over from connecting has written a 502
    line to the upgraded socket and destroyed it).  The other direction
    does neither: on the client's [close] event, and on the client's
    [error] event, the code calls [targetWs.close()] without arguments, so
    neither the client's code and reason nor 1011 reach the target. *)
Theorem closure_propagation_is_one_way
    (JSON_stringify : jsvalue → string) (now : string)
    (k : RawSocket) (t c : WebSocket) (code : Z) (reason message : string) :
  let handle := relay_event JSON_stringify now in
  let s := bridged k t c in
  close_calls (ws (final_state (handle (TargetClose code reason) s)))
  = ws_close_calls c ++ [{| cc_code := Some code; cc_reason := Some reason |}] ∧
  close_calls (ws (final_state (handle (TargetError message) s)))
  = ws_close_calls c ++ [{| cc_code := Some 1011; cc_reason := Some "Target WebSocket error" |}] ∧
  sock_destroyed (socket (final_state (handle (TargetError message) s))) = true ∧
  close_calls (targetWs (final_state (handle (ClientClose code reason) s)))
  = ws_close_calls t ++ [{| cc_code := None; cc_reason := None |}] ∧
  close_calls (targetWs (final_state (handle (ClientError message) s)))
  = ws_close_calls t ++ [{| cc_code := None; cc_reason := None |}].
Proof.
  cbn. repeat split; close_recorded.
Qed.

(** ** WebSocket endpoints: the scheme of the target *)

(** The information route refuses every target string that does not
    begin with [ws://] or [wss://]. *)
Lemma ws_proxy_info_rejects (URL_new : string → option URL) (PORT : string)
    (req : Request) (targetUrl : string) :
  prop (query req) "url" = Some (QStr targetUrl) →
  matches_ws_scheme targetUrl = false →
  sent_status (res_of_info URL_new PORT req) = Some 400.
Proof.
  intros Hurl Hscheme. unfold res_of_info, ws_proxy_info. rewrite Hurl. cbn [qvalue_truthy].
  destruct (String.eqb targetUrl ""); cbn [negb].
  - by rewrite status_json_unsent.
  - unfold eff_bind at 1. rewrite isValidUrl_run. cbn [qvalue_toString].
    destruct (match URL_new targetUrl with Some _ => _ | None => _ end); cbn [negb].
    + rewrite Hscheme. cbn [negb]. by rewrite status_json_unsent.
    + by rewrite status_json_unsent.
Qed.

(** The upgrade listener tests only that the header is present: whatever
    its scheme, the address goes to [new WebSocket], and what happens is
    what that constructor decides. *)
Lemma on_upgrade_unchecked (WebSocket_throws : string → option string)
    (request : Request) (targetUrl : string) :
  headers request !! "x-target-url" = Some targetUrl →
  targetUrl ≠ "" →
  on_upgrade WebSocket_throws request new_relay
  = Returned tt
      (match WebSocket_throws targetUrl with
       | None => set_targetWs (Some (connecting_to targetUrl (ws_headers request))) new_relay
       | Some _ => set_socket (socket_destroy
                                 (socket_write (status_line "500 Internal Server Error")
                                               (socket new_relay))) new_relay
       end).
Proof.
  intros Hhdr Hne. unfold on_upgrade. rewrite Hhdr.
  apply String.eqb_neq in Hne. rewrite Hne.
  unfold try_catch, new_WebSocket. by destruct (WebSocket_throws targetUrl).
Qed.

(** C9, at the input on which the code departs from it.  The target
    [http://example.com/echo] passes the Validator and is refused with 400
    by the information route, yet the upgrade listener, given a [ws]
    constructor that accepts the address, refuses nothing: no status line
    is written to the inbound socket, it is not destroyed, and the
    outbound WebSocket to the http address is under construction. *)
Theorem upgrade_opens_http_target (PORT : string) :
  isValidUrl example_URL_new "http://example.com/echo" tt = Returned true tt ∧
  sent_status (res_of_info example_URL_new PORT example_get) = Some 400 ∧
  on_upgrade (λ _, None) example_upgrade new_relay
  = Returned tt (set_targetWs
                   (Some (connecting_to "http://example.com/echo" (ws_headers example_upgrade)))
                   new_relay) ∧
  sock_written (socket (final_state (on_upgrade (λ _, None) example_upgrade new_relay))) = [] ∧
  sock_destroyed (socket (final_state (on_upgrade (λ _, None) example_upgrade new_relay))) = false.
Proof.
  split; [reflexivity |]. split.
  - by apply (ws_proxy_info_rejects _ _ _ "http://example.com/echo").
  - rewrite (on_upgrade_unchecked _ example_upgrade "http://example.com/echo"); done.
Qed.

(** ** Outbound headers *)

Lemma proxy_headers_fixed (req : Request) (name : string) :
  name ≠ "X-Custom-Header" →
  proxy_headers req !! name
  = (<["X-Requested-With" := or_else (headers req !! "x-requested-with") ""]>
     (<["Authorization" := or_else (headers req !! "authorization") ""]>
     (<["Accept" := or_else (headers req !! "accept") "application/json"]>
     (<["User-Agent" := "NativeProxy/1.0.0"]>
     (<["Content-Type" := or_else (headers req !! "content-type") "application/json"]>
        (∅ : gmap string string)))))) !! name.
Proof.
  intros Hne. unfold proxy_headers.
  destruct (headers req !! "x-custom-header") as [v |]; [| done].
  destruct (String.eqb v ""); [done |]. by rewrite lookup_insert_ne.
Qed.

Lemma with_content_length_other (JSON_stringify : jsvalue → string)
    (Buffer_from : string → Buffer) (req : Request) (h : gmap string string) (name : string) :
  name ≠ "Content-Length" →
  with_content_length JSON_stringify Buffer_from req h !! name = h !! name.
Proof.
  intros Hne. unfold with_content_length.
  destruct (sends_body req); [| done]. by rewrite lookup_insert_ne.
Qed.

(** C10, as the code has it.  The forwarder's outbound headers always hold
    Authorization and X-Requested-With, and the downloader's always hold
    Authorization and Range, each with the inbound value or, when the
    inbound request lacks it, the empty string; the downloader sends no
    X-Requested-With.  Of the forwarder's headers taken from the inbound
    request only X-Custom-Header is left out when the inbound request lacks
    it: Content-Type, Accept and User-Agent are always present. *)
Theorem outbound_header_names
    (JSON_stringify : jsvalue → string) (Buffer_from : string → Buffer)
    (req : Request) (u : URL) :
  let fwd := opt_headers (proxy_options JSON_stringify Buffer_from req u) in
  let dl := opt_headers (download_options req u) in
  (fwd !! "Authorization" = Some (or_else (headers req !! "authorization") "") ∧
   fwd !! "X-Requested-With" = Some (or_else (headers req !! "x-requested-with") "")) ∧
  (dl !! "Authorization" = Some (or_else (headers req !! "authorization") "") ∧
   dl !! "Range" = Some (or_else (headers req !! "range") "") ∧
   dl !! "X-Requested-With" = None) ∧
  (headers req !! "authorization" = None →
   fwd !! "Authorization" = Some "" ∧ dl !! "Authorization" = Some "") ∧
  (headers req !! "x-requested-with" = None → fwd !! "X-Requested-With" = Some "") ∧
  (headers req !! "range" = None → dl !! "Range" = Some "") ∧
  (headers req !! "x-custom-header" = None → fwd !! "X-Custom-Header" = None) ∧
  (is_Some (fwd !! "Content-Type") ∧ is_Some (fwd !! "User-Agent") ∧ is_Some (fwd !! "Accept")).
Proof.
  cbn zeta. cbn [proxy_options download_options opt_headers].
  assert (Hfwd : ∀ name, name ≠ "Content-Length" → name ≠ "X-Custom-Header" →
            with_content_length JSON_stringify Buffer_from req (proxy_headers req) !! name
            = (<["X-Requested-With" := or_else (headers req !! "x-requested-with") ""]>
               (<["Authorization" := or_else (headers req !! "authorization") ""]>
               (<["Accept" := or_else (headers req !! "accept") "application/json"]>
               (<["User-Agent" := "NativeProxy/1.0.0"]>
               (<["Content-Type" := or_else (headers req !! "content-type") "application/json"]>
                  (∅ : gmap string string)))))) !! name).
  { intros name H1 H2. by rewrite with_content_length_other, proxy_headers_fixed. }
  rewrite !Hfwd by done. unfold download_headers.
  split; [by simplify_map_eq |]. split; [by simplify_map_eq |].
  split; [intros ->; by simplify_map_eq |].
  split; [intros ->; by simplify_map_eq |].
  split; [intros ->; by simplify_map_eq |].
  split.
  - intros Hnone. rewrite with_content_length_other by done.
    unfold proxy_headers. rewrite Hnone. by simplify_map_eq.
  - rewrite (Hfwd "Content-Type"), (Hfwd "User-Agent"), (Hfwd "Accept") by done.
    simplify_map_eq. repeat split; by eexists.
Qed.

(** C10 as worded puts X-Requested-With among the downloader's outbound
    headers as well; the downloader's header literal has no such key. *)
Lemma download_sends_no_x_requested_with :
  opt_headers (download_options example_get example_url) !! "Authorization" = Some "" ∧
  opt_headers (download_options example_get example_url) !! "Range" = Some "" ∧
  opt_headers (download_options example_get example_url) !! "X-Requested-With" = None.
Proof.
  cbn [download_options opt_headers]. unfold download_headers. by simplify_map_eq.
Qed.

(** ** Query parameters on the outbound path *)

Lemma prefix_append (p t : string) :
  String.prefix p t = true ↔ ∃ b, t = p +:+ b.
Proof.
  revert t. induction p as [| a p IH]; intros t.
  - split; [intros _; by exists t | intros _; by destruct t].
  - destruct t as [| d t]; cbn.
    + split; [done | intros (b & ?); discriminate].
    + destruct (ascii_dec a d) as [-> | Hne].
      * rewrite IH. split; intros (b & Hb); exists b; [by rewrite Hb | by injection Hb].
      * split; [done | intros (b & Hb); injection Hb; congruence].
Qed.

(** [includes] is containment as a substring. *)
Lemma includes_spec (s sub : string) :
  includes s sub = true ↔ ∃ a b, s = a +:+ sub +:+ b.
Proof.
  induction s as [| c s IH]; cbn [includes].
  - destruct (String.prefix sub "") eqn:Hp.
    + split; [intros _ | done]. apply prefix_append in Hp as (b & Hb). by exists "", b.
    + split; [done |]. intros (a & b & Heq). destruct a; [| discriminate].
      assert (String.prefix sub "" = true) by (apply prefix_append; by exists b). congruence.
  - destruct (String.prefix sub (String c s)) eqn:Hp.
    + split; [intros _ | done]. apply prefix_append in Hp as (b & Hb). by exists "", b.
    + rewrite IH. split.
      * intros (a & b & ->). by exists (String c a), b.
      * intros (a & b & Heq). destruct a as [| d a].
        -- assert (String.prefix sub (String c s) = true)
             by (apply prefix_append; by exists b).
           congruence.
        -- cbn in Heq. injection Heq as -> ->. by exists a, b.
Qed.

Lemma queryParams_fold (q : list (string * qvalue)) (acc : URLSearchParams) :
  fold_left (λ params kv,
               if String.eqb kv.1 "url" then params
               else URLSearchParams_append kv.1 (qvalue_toString kv.2) params) q acc
  = acc ++ caller_params q.
Proof.
  unfold caller_params. revert acc.
  induction q as [| [k v] q IH]; intros acc; cbn [fold_left].
  - by rewrite filter_nil, app_nil_r.
  - rewrite IH. cbn [fst snd]. destruct (String.eqb_spec k "url") as [-> | Hne].
    + by rewrite filter_cons_False by (cbn; tauto).
    + rewrite filter_cons_True by done. unfold URLSearchParams_append.
      by rewrite fmap_cons, <- app_assoc.
Qed.

Lemma queryParams_caller (q : list (string * qvalue)) (t : qvalue) :
  prop q "url" = Some t → queryParams q = caller_params q.
Proof.
  intros Hurl. unfold queryParams.
  destruct (1 <? Z.of_nat (length q)) eqn:Hlen; [apply queryParams_fold |].
  apply Z.ltb_ge in Hlen.
  destruct q as [| [k v] [| ? ?]]; [done | | cbn in Hlen; lia].
  cbn in Hurl. destruct (String.eqb_spec k "url") as [-> | ?]; [| done].
  unfold caller_params. by rewrite filter_cons_False by (cbn; tauto).
Qed.

Lemma append_empty_inv (a b : string) : a +:+ b = "" → a = "" ∧ b = "".
Proof. destruct a; [done | discriminate]. Qed.

Lemma form_pair_nonempty (kv : string * string) : form_pair kv ≠ "".
Proof.
  unfold form_pair. intros H.
  apply append_empty_inv in H as [_ H]. discriminate.
Qed.

(** The serialisation is empty only when nothing was appended. *)
Lemma URLSearchParams_toString_empty (p : URLSearchParams) :
  URLSearchParams_toString p = "" ↔ p = [].
Proof.
  unfold URLSearchParams_toString. split; [| by intros ->].
  destruct p as [| kv p]; [done |]. cbn [map String.concat].
  intros H. exfalso. destruct (map form_pair p).
  - by apply (form_pair_nonempty kv).
  - apply append_empty_inv in H as [H _]. by apply (form_pair_nonempty kv).
Qed.

Lemma caller_params_names (q : list (string * qvalue)) :
  (caller_params q).*1 = filter (λ k, k ≠ "url") q.*1.
Proof.
  unfold caller_params. induction q as [| [k v] q IH]; [done |].
  rewrite fmap_cons. cbn [fst].
  destruct (decide (k = "url")) as [-> | Hne].
  - rewrite !filter_cons_False by (cbn; tauto). exact IH.
  - rewrite !filter_cons_True by done. rewrite !fmap_cons. cbn [fst]. by rewrite IH.
Qed.

Lemma occurrences_NoDup (p : URLSearchParams) (k : string) :
  NoDup p.*1 → k ∈ p.*1 → occurrences k p = 1%nat.
Proof.
  unfold occurrences. induction p as [| [k' v'] p IH]; intros Hnd Hin.
  - by apply elem_of_nil in Hin.
  - rewrite fmap_cons in Hnd, Hin. cbn [fst] in Hnd, Hin.
    apply NoDup_cons in Hnd as [Hfresh Hnd].
    destruct (decide (k' = k)) as [-> | Hne].
    + rewrite (filter_cons_True (λ kv : string * string, kv.1 = k)) by done.
      cbn [length]. f_equal.
      assert (Hnone : filter (λ kv : string * string, kv.1 = k) p = []).
      { destruct (filter (λ kv : string * string, kv.1 = k) p) as [| kv rest] eqn:Hf; [done |].
        assert (Hkv : kv ∈ filter (λ kv : string * string, kv.1 = k) p)
          by (rewrite Hf; left).
        apply list_elem_of_filter in Hkv as [<- Hkv]. exfalso. apply Hfresh.
        by apply list_elem_of_fmap_2. }
      by rewrite Hnone.
    + rewrite (filter_cons_False (λ kv : string * string, kv.1 = k)) by done.
      apply IH; [done |]. apply elem_of_cons in Hin as [-> | Hin]; [done | exact Hin].
Qed.

(** X18.  With [url] among the entries of the parsed query object
    [req.query], every other entry is appended to the outbound path as
    one pair, its key with [String] of its value, in order, form-encoded
    and joined by [&]; each key occurs exactly once among the appended
    pairs and [url] never does.  The appended part is introduced by [&]
    when the path taken from the target URL contains a [?], by [?]
    otherwise, and nothing is appended when there is no such entry.  An
    entry is what the query parser made of the caller's parameters: a
    repeated key is one entry, whose value goes out as the comma-joined
    array. *)
Theorem query_parameters_forwarded
    (JSON_stringify : jsvalue → string) (Buffer_from : string → Buffer)
    (req : Request) (u : URL) (t : qvalue) :
  prop (query req) "url" = Some t →
  NoDup (query req).*1 →
  let base := pathname u +:+ search u in
  let params := caller_params (query req) in
  let path := opt_path (proxy_options JSON_stringify Buffer_from req u) in
  (params = [] → path = base) ∧
  (params ≠ [] →
   path = base +:+ (if includes base "?" then "&" else "?")
               +:+ String.concat "&" (map form_pair params)) ∧
  (∀ k v, (k, v) ∈ query req → k ≠ "url" →
          (k, qvalue_toString v) ∈ params ∧ occurrences k params = 1%nat) ∧
  occurrences "url" params = 0%nat.
Proof.
  intros Hurl Hnd. cbn zeta. cbn [proxy_options opt_path].
  rewrite (queryParams_caller _ t Hurl). unfold append_query.
  split; [| split; [| split]].
  - intros ->. reflexivity.
  - intros Hne.
    destruct (String.eqb_spec (URLSearchParams_toString (caller_params (query req))) "")
      as [Hempty | _]; [| reflexivity].
    by apply URLSearchParams_toString_empty in Hempty.
  - intros k v Hin Hk. split.
    + unfold caller_params.
      apply (list_elem_of_fmap_2' _ _ (k, v)); [| done].
      by apply list_elem_of_filter.
    + apply occurrences_NoDup; rewrite caller_params_names.
      * by apply NoDup_filter.
      * apply list_elem_of_filter. split; [done |].
        by apply (list_elem_of_fmap_2' _ _ (k, v)).
  - unfold occurrences.
    destruct (filter (λ kv : string * string, kv.1 = "url") (caller_params (query req)))
      as [| kv rest] eqn:Hf; [done |].
    assert (Hkv : kv ∈ filter (λ kv : string * string, kv.1 = "url")
                          (caller_params (query req))) by (rewrite Hf; left).
    apply list_elem_of_filter in Hkv as [Hname Hkv].
    apply (list_elem_of_fmap_2 fst) in Hkv. rewrite caller_params_names in Hkv.
    apply list_elem_of_filter in Hkv as [Hkv _]. by rewrite Hname in Hkv.
Qed.

Lemma query_parameters_forwarded_witness :
  opt_path (proxy_options (λ _, "{}") (λ _, []) example_search example_url)
  = "/echo?page=2&tag=a%2Cb+c" ∧
  occurrences "page" (caller_params (query example_search)) = 1%nat ∧
  occurrences "url" (caller_params (query example_search)) = 0%nat.
Proof.
  assert (Hnd : NoDup (query example_search).*1).
  { apply (bool_decide_unpack _). reflexivity. }
  destruct (query_parameters_forwarded (λ _, "{}") (λ _, []) example_search example_url
              (QStr "http://example.com/echo") eq_refl Hnd)
    as (_ & Hpath & Hone & Hnone).
  split; [| split].
  - rewrite Hpath; [reflexivity | discriminate].
  - apply (Hone "page" (QStr "2")); [right; left | discriminate].
  - exact Hnone.
Defined.

(** C7, at the inputs on which the code departs from it.  A caller who
    sends [tag=a&tag=b] besides [url] supplies two parameters.  The query
    parser hands them over as one entry, [tag] with the array of both
    values; the forwarder appends [String] of that array once, and the
    outbound path carries the single parameter [tag=a%2Cb]: neither
    [tag=a] nor [tag=b] goes upstream.  A bracketed parameter [f[x]=1],
    handed over as a nested object, goes upstream as
    [f=%5Bobject+Object%5D]. *)
Theorem repeated_parameter_is_merged
    (JSON_stringify : jsvalue → string) (Buffer_from : string → Buffer) :
  queryParams (query example_repeated) = [("tag", "a,b")] ∧
  opt_path (proxy_options JSON_stringify Buffer_from example_repeated example_url)
  = "/echo?tag=a%2Cb" ∧
  queryParams (query example_nested) = [("f", "[object Object]")] ∧
  opt_path (proxy_options JSON_stringify Buffer_from example_nested example_url)
  = "/echo?f=%5Bobject+Object%5D".
Proof. repeat split. Qed.

(** ** Response headers copied from upstream *)

Lemma copy_header_unsent (m : IncomingMessage) (name : string) (r : Response) :
  headersSent r = false →
  copy_header m name r
  = Returned tt (with_headers (copied_headers m [name] (resHeaders r)) r).
Proof.
  intros Hunsent. unfold copy_header, copied_headers, with_headers. cbn [foldl].
  destruct (im_headers m !! name) as [v |]; [destruct (String.eqb v "") |];
    try (by destruct r).
  unfold res_setHeader. by rewrite Hunsent.
Qed.

Lemma forEach_copy_header (m : IncomingMessage) (names : list string) (r : Response) :
  headersSent r = false →
  forEach (copy_header m) names r
  = Returned tt (with_headers (copied_headers m names (resHeaders r)) r).
Proof.
  revert r. induction names as [| name names IH]; intros r Hunsent.
  - by destruct r.
  - cbn [forEach]. unfold eff_bind. rewrite copy_header_unsent by done.
    rewrite IH by done. reflexivity.
Qed.

Lemma cors_headers_unsent (allow_headers : string) (r : Response) :
  headersSent r = false →
  cors_headers allow_headers r
  = Returned tt (with_headers (with_cors allow_headers (resHeaders r)) r).
Proof.
  unfold cors_headers, eff_bind, res_setHeader, with_cors, with_headers, headersSent.
  destruct r as [sc h [hd |] o f]; cbn; [discriminate | reflexivity].
Qed.

Lemma copied_headers_cons (m : IncomingMessage) (n : string) (names : list string)
    (h : gmap string string) :
  copied_headers m (n :: names) h = copied_headers m names (copied_headers m [n] h).
Proof. reflexivity. Qed.

Lemma copied_headers_one (m : IncomingMessage) (n : string) (h : gmap string string)
    (name : string) :
  copied_headers m [n] h !! name
  = if decide (name = n) then
      match im_headers m !! name with
      | Some v => if String.eqb v "" then h !! name else Some v
      | None => h !! name
      end
    else h !! name.
Proof.
  unfold copied_headers. cbn [foldl]. case_decide as Hn.
  - subst n. destruct (im_headers m !! name) as [v |]; [| done].
    destruct (String.eqb v ""); [done |]. by rewrite lookup_insert_eq.
  - destruct (im_headers m !! n) as [v |]; [| done].
    destruct (String.eqb v ""); [done |]. by rewrite lookup_insert_ne.
Qed.

Lemma copied_headers_other (m : IncomingMessage) (names : list string)
    (h : gmap string string) (name : string) :
  name ∉ names → copied_headers m names h !! name = h !! name.
Proof.
  revert h. induction names as [| n names IH]; intros h Hnotin; [done |].
  apply not_elem_of_cons in Hnotin as [Hne Hnotin].
  rewrite copied_headers_cons, IH, copied_headers_one by done. by rewrite decide_False.
Qed.

(** A copied name carries the upstream value when that value is truthy. *)
Lemma copied_headers_lookup (m : IncomingMessage) (names : list string)
    (h : gmap string string) (name : string) :
  name ∈ names →
  copied_headers m names h !! name
  = match im_headers m !! name with
    | Some v => if String.eqb v "" then h !! name else Some v
    | None => h !! name
    end.
Proof.
  revert h. induction names as [| n names IH]; intros h Hin.
  - by apply elem_of_nil in Hin.
  - rewrite copied_headers_cons.
    destruct (decide (name ∈ names)) as [Hrest | Hrest].
    + rewrite IH, copied_headers_one by done.
      case_decide; [| done]. destruct (im_headers m !! name) as [v |]; [| done].
      by destruct (String.eqb v "").
    + rewrite copied_headers_other, copied_headers_one by done.
      apply elem_of_cons in Hin as [-> | Hin]; [| done]. by rewrite decide_True.
Qed.

(** ** Streaming Downloader *)

Lemma deliver_app {S : Type} (handle : Event → Eff S unit) (l1 l2 : list Event) (s : S) :
  deliver handle (l1 ++ l2) s
  = match deliver handle l1 s with
    | Returned _ s' => deliver handle l2 s'
    | Thrown e s' => Thrown e s'
    end.
Proof.
  revert s. induction l1 as [| e l1 IH]; intros s; [done |].
  cbn [app deliver]. unfold eff_bind. destruct (handle e s); [apply IH | done].
Qed.

Lemma out_bytes_chunks (chunks : list Buffer) :
  out_bytes (PBuffer <$> chunks) = concat chunks.
Proof. induction chunks as [| c chunks IH]; [done |]. cbn. by rewrite IH. Qed.

Lemma download_response_start (development : bool) (c : ClientRequest) (m : IncomingMessage) :
  download_event development (EvResponse m) (in_flight c)
  = Returned tt (receiving c m [] 0
                   (streamed (im_statusCode m) (download_response_headers m) [])).
Proof.
  unfold download_event, eff_bind at 1, get_state, download_on_response.
  unfold eff_bind at 1, on_res, zoom. unfold eff_bind at 1, res_status, modify_state.
  unfold eff_bind at 1. rewrite forEach_copy_header by done.
  rewrite cors_headers_unsent by done. reflexivity.
Qed.

Lemma download_data_step (development : bool) (c : ClientRequest) (m : IncomingMessage)
    (n status : Z) (h : gmap string string) (chunks : list Buffer) (chunk : Buffer) :
  download_event development (EvData chunk) (receiving c m [] n (streamed status h chunks))
  = Returned tt (receiving c m [] (n + Z.of_nat (length chunk))
                   (streamed status h (chunks ++ [chunk]))).
Proof.
  cbn. unfold receiving, streamed, set_res, flush_head. cbn.
  rewrite fmap_app. by destruct chunks.
Qed.

Lemma download_data_all (development : bool) (c : ClientRequest) (m : IncomingMessage)
    (status : Z) (h : gmap string string) (more chunks : list Buffer) (n : Z) :
  deliver (download_event development) (EvData <$> more)
          (receiving c m [] n (streamed status h chunks))
  = Returned tt (receiving c m [] (n + total_length more) (streamed status h (chunks ++ more))).
Proof.
  revert chunks n. induction more as [| chunk more IH]; intros chunks n.
  - unfold total_length. cbn. by rewrite Z.add_0_r, app_nil_r.
  - rewrite fmap_cons. cbn [deliver]. unfold eff_bind. rewrite download_data_step, IH.
    rewrite <- app_assoc. cbn [app]. do 2 f_equal.
    unfold total_length. cbn [concat]. rewrite length_app. lia.
Qed.

Lemma download_end_step (development : bool) (c : ClientRequest) (m : IncomingMessage)
    (n status : Z) (h : gmap string string) (chunks : list Buffer) :
  download_event development EvEnd (receiving c m [] n (streamed status h chunks))
  = Returned tt (receiving c m [] n (ended status h chunks)).
Proof.
  cbn. unfold receiving, ended, set_res, flush_head. cbn. by destruct chunks.
Qed.

Lemma pretty_N_go_nonempty (x : N) (s : string) : s ≠ "" → pretty_N_go x s ≠ "".
Proof.
  revert s. induction (N.lt_wf_0 x) as [x _ IH]; intros s Hs.
  assert (x = 0 ∨ 0 < x)%N as [-> | Hpos] by lia.
  - by rewrite pretty_N_go_0.
  - rewrite pretty_N_go_step by done. apply IH; [by apply N.div_lt | done].
Qed.

(** A decimal numeral is not the empty string. *)
Lemma pretty_nat_nonempty (n : nat) : pretty n ≠ "".
Proof.
  unfold pretty, pretty_nat, pretty, pretty_N. case_decide; [done |].
  rewrite pretty_N_go_step by lia. by apply pretty_N_go_nonempty.
Qed.

(** C3.  Let the upstream response declare content-length [L] and deliver
    chunks whose concatenation has [L] bytes.  Whatever the chunking, once
    [end] has been handled the caller has received exactly the upstream
    bytes, in order, [L] of them, under the upstream status and the copied
    headers (content-length among them), and the response is ended.
    During the transfer, after the response event and any [k] chunks, the
    status and headers are already set on the response and nothing is
    held back: the caller has the concatenation of those [k] chunks and
    the exchange buffers no body byte; from the first chunk on the head
    has gone out, while the response is still open. *)
Theorem download_relays_every_byte
    (development : bool) (c : ClientRequest) (m : IncomingMessage)
    (chunks : list Buffer) (L : nat) :
  im_headers m !! "content-length" = Some (pretty L) →
  length (concat chunks) = L →
  let handle := download_event development in
  let sent_head := Some (im_statusCode m, download_response_headers m) in
  (∃ x, deliver handle (EvResponse m :: (EvData <$> chunks) ++ [EvEnd]) (in_flight c)
        = Returned tt x ∧
        out_bytes (out (res x)) = concat chunks ∧
        length (out_bytes (out (res x))) = L ∧
        finished (res x) = true ∧
        head (res x) = sent_head ∧
        download_response_headers m !! "content-length" = Some (pretty L) ∧
        downloadedBytes x = Z.of_nat L) ∧
  (∀ k : nat,
     ∃ x, deliver handle (EvResponse m :: (EvData <$> take k chunks)) (in_flight c)
          = Returned tt x ∧
          statusCode (res x) = im_statusCode m ∧
          resHeaders (res x) = download_response_headers m ∧
          out_bytes (out (res x)) = concat (take k chunks) ∧
          responseData x = [] ∧
          finished (res x) = false ∧
          (take k chunks ≠ [] → head (res x) = sent_head)).
Proof.
  intros Hdeclared Hlen. cbn zeta. split.
  - eexists. split.
    + cbn [deliver]. unfold eff_bind at 1. rewrite download_response_start.
      rewrite deliver_app, download_data_all. cbn [deliver]. unfold eff_bind at 1.
      rewrite download_end_step. reflexivity.
    + cbn [receiving ended res out finished head downloadedBytes app].
      rewrite out_bytes_chunks. repeat split; try done.
      * unfold download_response_headers, with_cors.
        rewrite !lookup_insert_ne by done.
        rewrite copied_headers_lookup by (unfold download_headersToCopy; set_solver).
        rewrite Hdeclared.
        destruct (String.eqb_spec (pretty L) "") as [Hempty | _]; [| done].
        by apply pretty_nat_nonempty in Hempty.
      * unfold total_length. rewrite Hlen. lia.
  - intros k. eexists. split.
    + cbn [deliver]. unfold eff_bind at 1. rewrite download_response_start.
      rewrite download_data_all. reflexivity.
    + cbn [receiving streamed res out finished head statusCode resHeaders responseData app].
      rewrite out_bytes_chunks. repeat split; try done.
      intros Hsome. by destruct (take k chunks).
Qed.

Lemma download_relays_every_byte_witness :
  ∃ x, deliver (download_event false)
               (EvResponse example_download :: (EvData <$> example_chunks) ++ [EvEnd])
               (in_flight example_clientRequest)
       = Returned tt x ∧
       out_bytes (out (res x)) = [x68; x65; x6c; x6c; x6f]%byte ∧
       finished (res x) = true.
Proof.
  destruct (download_relays_every_byte false example_clientRequest example_download
              example_chunks 5 eq_refl eq_refl)
    as ((x & Hrun & Hbytes & _ & Hfinished & _) & _).
  exists x. split; [exact Hrun |]. split; [exact Hbytes | exact Hfinished].
Defined.

(** ** Request Forwarder: the buffered response *)

Lemma proxy_response_start
    (JSON_parse : string → option jsvalue) (Buffer_toString : Buffer → string)
    (development : bool) (c : ClientRequest) (m : IncomingMessage) :
  proxy_event JSON_parse Buffer_toString development (EvResponse m) (in_flight c)
  = Returned tt (receiving c m [] 0 (streamed (im_statusCode m) (proxy_response_headers m) [])).
Proof.
  unfold proxy_event, eff_bind at 1, get_state, proxy_on_response.
  unfold eff_bind at 1, on_res, zoom. unfold eff_bind at 1, res_status, modify_state.
  unfold eff_bind at 1. rewrite forEach_copy_header by done.
  rewrite cors_headers_unsent by done. reflexivity.
Qed.

Lemma proxy_data_step
    (JSON_parse : string → option jsvalue) (Buffer_toString : Buffer → string)
    (development : bool) (c : ClientRequest) (m : IncomingMessage)
    (chunk buffered : Buffer) (n : Z) (r : Response) :
  proxy_event JSON_parse Buffer_toString development (EvData chunk)
              (receiving c m buffered n r)
  = Returned tt (receiving c m (buffered ++ chunk) n r).
Proof. reflexivity. Qed.

Lemma proxy_data_all
    (JSON_parse : string → option jsvalue) (Buffer_toString : Buffer → string)
    (development : bool) (c : ClientRequest) (m : IncomingMessage)
    (chunks : list Buffer) (buffered : Buffer) (n : Z) (r : Response) :
  deliver (proxy_event JSON_parse Buffer_toString development) (EvData <$> chunks)
          (receiving c m buffered n r)
  = Returned tt (receiving c m (buffered ++ concat chunks) n r).
Proof.
  revert buffered. induction chunks as [| chunk chunks IH]; intros buffered.
  - cbn. by rewrite app_nil_r.
  - rewrite fmap_cons. cbn [deliver]. unfold eff_bind at 1.
    rewrite proxy_data_step, IH. cbn [concat]. by rewrite app_assoc.
Qed.

Lemma proxy_response_start_for
    (JSON_parse : string → option jsvalue) (Buffer_toString : Buffer → string)
    (development : bool) (c : ClientRequest) (m : IncomingMessage) (r : Response) :
  headersSent r = false →
  proxy_event JSON_parse Buffer_toString development (EvResponse m) (set_res r (in_flight c))
  = Returned tt (receiving c m [] 0 (announced m r)).
Proof.
  intros Hunsent.
  unfold proxy_event, eff_bind at 1, get_state, proxy_on_response.
  unfold eff_bind at 1, on_res, zoom. unfold eff_bind at 1, res_status, modify_state.
  unfold eff_bind at 1. cbn [res set_res].
  rewrite forEach_copy_header by done.
  rewrite cors_headers_unsent by done. reflexivity.
Qed.

Lemma proxy_end_step
    (JSON_parse : string → option jsvalue) (Buffer_toString : Buffer → string)
    (development : bool) (c : ClientRequest) (m : IncomingMessage)
    (body : Buffer) (n : Z) (r : Response) :
  headersSent r = false →
  proxy_event JSON_parse Buffer_toString development EvEnd (receiving c m body n r)
  = Returned tt (receiving c m body n
                   (express_send (forwarded_body JSON_parse Buffer_toString m body) r)).
Proof.
  intros Hunsent.
  unfold proxy_event, eff_bind at 1, get_state. cbn [receiving proxyRes].
  unfold proxy_on_end, eff_bind at 1, get_state, forwarded_body.
  change (responseData (receiving c m body n r)) with body.
  unfold try_catch, on_res, zoom, res_json, res_send. cbn [receiving res].
  destruct (includes _ "application/json");
    [destruct (JSON_parse (Buffer_toString body)) |];
    cbn [throw]; by rewrite res_complete_unsent.
Qed.

Lemma proxyRequest_starts
    (URL_new : string → option URL) (JSON_stringify : jsvalue → string)
    (Buffer_from : string → Buffer)
    (request_throws : HttpModule → RequestOptions → option string) (development : bool)
    (req : Request) (target : qvalue) (u : URL) (r : Response) :
  prop (query req) "url" = Some target →
  qvalue_truthy target = true →
  URL_new (qvalue_toString target) = Some u →
  protocol u ∈ valid_protocols →
  request_throws (getHttpModule (protocol u)) (proxy_options JSON_stringify Buffer_from req u)
  = None →
  proxyRequest URL_new JSON_stringify Buffer_from request_throws development req
               (set_res r new_exchange)
  = Returned tt (set_res r (in_flight (started_request JSON_stringify Buffer_from req u))).
Proof.
  intros Hurl Htruthy Hparse Hproto Hok.
  unfold proxyRequest. rewrite Hurl, Htruthy. cbn [negb].
  unfold eff_bind at 1. rewrite isValidUrl_run, Hparse.
  apply array_includes_elem_of in Hproto. rewrite Hproto. cbn [negb].
  unfold try_catch, eff_bind at 1, construct_URL. rewrite Hparse. cbn [eff_ret].
  unfold eff_bind at 1, http_request. rewrite Hok.
  unfold started_request. by destruct (sends_body req).
Qed.

Lemma or_else_empty (s : string) : or_else (Some s) "" = s.
Proof. unfold or_else. by destruct (String.eqb_spec s "") as [-> | _]. Qed.

(** One buffered exchange, start to end: the chunks are concatenated and
    the buffered body is handed to [res.json] or [res.send] once, under
    the upstream status. *)
Lemma forwarder_run
    (JSON_parse : string → option jsvalue) (Buffer_toString : Buffer → string)
    (development : bool) (c : ClientRequest) (m : IncomingMessage) (chunks : list Buffer)
    (r : Response) :
  headersSent r = false →
  deliver (proxy_event JSON_parse Buffer_toString development)
          (EvResponse m :: (EvData <$> chunks) ++ [EvEnd]) (set_res r (in_flight c))
  = Returned tt
      (receiving c m (concat chunks) 0
         (express_send (forwarded_body JSON_parse Buffer_toString m (concat chunks))
                       (announced m r))).
Proof.
  intros Hunsent.
  cbn [deliver]. unfold eff_bind at 1. rewrite proxy_response_start_for by done.
  rewrite deliver_app, proxy_data_all. cbn [deliver app]. unfold eff_bind at 1.
  by rewrite proxy_end_step.
Qed.

(** The classification covers what the outbound request reports.  A
    failure of the upstream body while the forwarder is buffering is
    reported to the [error] listeners of [proxyRes], and the forwarder
    registers none: no listener runs, the caller is sent nothing and the
    response stays open. *)
Lemma upstream_abort_while_buffering_unanswered
    (JSON_parse : string → option jsvalue) (Buffer_toString : Buffer → string)
    (development : bool) (c : ClientRequest) (m : IncomingMessage) (chunks : list Buffer)
    (message : string) :
  ∃ x,
    deliver (proxy_event JSON_parse Buffer_toString development)
            (EvResponse m :: (EvData <$> chunks) ++ [EvStreamError message]) (in_flight c)
    = Returned tt x ∧
    headersSent (res x) = false ∧ out (res x) = [] ∧ finished (res x) = false ∧
    responseData x = concat chunks.
Proof.
  eexists. split.
  - cbn [deliver]. unfold eff_bind at 1.
    rewrite (proxy_response_start_for _ _ _ c m fresh_response eq_refl).
    rewrite deliver_app, proxy_data_all. reflexivity.
  - done.
Qed.

(** A method that carries a body is neither GET nor HEAD. *)
Lemma body_method_not_safe (req : Request) :
  sends_body req = true →
  String.eqb (method req) "GET" = false ∧ String.eqb (method req) "HEAD" = false.
Proof.
  unfold sends_body. intros [Hmethod _]%andb_prop.
  apply array_includes_elem_of in Hmethod. unfold body_methods in Hmethod.
  repeat (apply elem_of_cons in Hmethod as [-> | Hmethod]);
    [done .. | by apply elem_of_nil in Hmethod].
Qed.

(** C6, as the code has it.  When the upstream response ends, the
    forwarder has buffered the whole body (the concatenation of the
    chunks) and hands it once to [res.json] or [res.send] under the
    upstream status: the decoded value if the upstream content-type
    contains [application/json] and the body parses, the raw bytes
    unchanged if it contains it and the body does not parse, and the raw
    bytes unchanged for any other content-type.  What the caller then
    receives is decided by [res.send].  If the upstream status is 2xx or
    304 and the inbound request is a GET or HEAD whose validators match
    the response (the copied etag and last-modified among its headers),
    the caller is answered 304 without a body.  Otherwise the caller is
    answered under the upstream status, with that body unless the status
    is 204, 205 or 304 or the inbound method is HEAD, and with no body
    then.  A POST, PUT or PATCH whose JSON body the target echoes back as
    [application/json], under a status other than those three, is
    therefore answered with a structured body equal to the payload,
    whatever validators it carries, given that parsing the text of the
    payload yields it. *)
Theorem forwarder_returns_decoded_json
    (URL_new : string → option URL) (JSON_parse : string → option jsvalue)
    (JSON_stringify : jsvalue → string) (Buffer_from : string → Buffer)
    (Buffer_toString : Buffer → string)
    (request_throws : HttpModule → RequestOptions → option string) (development : bool)
    (req : Request) (target : qvalue) (u : URL) (payload : jsvalue)
    (echo : IncomingMessage) (echoed : list Buffer) (ct : string) :
  prop (query req) "url" = Some target →
  qvalue_truthy target = true →
  URL_new (qvalue_toString target) = Some u →
  protocol u ∈ valid_protocols →
  request_throws (getHttpModule (protocol u)) (proxy_options JSON_stringify Buffer_from req u)
  = None →
  sends_body req = true →
  reqBody req = Some payload →
  im_headers echo !! "content-type" = Some ct →
  (∃ a b, ct = a +:+ "application/json" +:+ b) →
  bodiless (im_statusCode echo) = false →
  concat echoed = Buffer_from (JSON_stringify payload) →
  JSON_parse (Buffer_toString (Buffer_from (JSON_stringify payload))) = Some payload →
  let handle := proxy_event JSON_parse Buffer_toString development in
  let returned := forwarded_body JSON_parse Buffer_toString in
  (∀ inbound validators c m chunks,
     let revalidated :=
       success_status (im_statusCode m)
       && (String.eqb inbound "GET" || String.eqb inbound "HEAD")
       && validators (proxy_response_headers m) (returned m (concat chunks)) in
     ∃ x, deliver handle (EvResponse m :: (EvData <$> chunks) ++ [EvEnd])
                  (in_flight_for inbound validators c)
          = Returned tt x ∧
          responseData x = concat chunks ∧
          finished (res x) = true ∧
          (revalidated = true → sent_status (res x) = Some 304 ∧ out (res x) = []) ∧
          (revalidated = false →
           sent_status (res x) = Some (im_statusCode m) ∧
           out (res x) = if bodiless (im_statusCode m) || String.eqb inbound "HEAD" then []
                         else [returned m (concat chunks)])) ∧
  (∀ m body t v,
     im_headers m !! "content-type" = Some t → includes t "application/json" = true →
     JSON_parse (Buffer_toString body) = Some v → returned m body = PJson v) ∧
  (∀ m body t,
     im_headers m !! "content-type" = Some t → includes t "application/json" = true →
     JSON_parse (Buffer_toString body) = None → returned m body = PBuffer body) ∧
  (∀ m body,
     includes (or_else (im_headers m !! "content-type") "") "application/json" = false →
     returned m body = PBuffer body) ∧
  (∀ validators,
     ∃ c x,
       proxyRequest URL_new JSON_stringify Buffer_from request_throws development req
                    (set_res (response_for (method req) validators) new_exchange)
       = Returned tt (in_flight_for (method req) validators c) ∧
       cr_written c = [JSON_stringify payload] ∧
       deliver handle (EvResponse echo :: (EvData <$> echoed) ++ [EvEnd])
               (in_flight_for (method req) validators c)
       = Returned tt x ∧
       sent_status (res x) = Some (im_statusCode echo) ∧
       out (res x) = [PJson payload]).
Proof.
  intros Hurl Htruthy Hparse Hproto Hok Hsends Hbody Hct Hjson Hstatus Hecho Hround. cbn zeta.
  split; [| split; [| split; [| split]]].
  - intros inbound validators c m chunks. eexists.
    split; [by apply forwarder_run |].
    cbn [receiving responseData res]. split; [done |]. split; [done |].
    unfold express_send, req_fresh.
    cbn [announced with_headers with_status response_for statusCode resHeaders req_method
         req_validators out finished head sent_status fmap option_fmap option_map app].
    fold (proxy_response_headers m). split.
    + intros ->. done.
    + intros ->. cbn [fst]. split; [done |].
      by destruct (bodiless (im_statusCode m) || String.eqb inbound "HEAD").
  - intros m body t v Ht Hinc Hv. unfold forwarded_body.
    by rewrite Ht, or_else_empty, Hinc, Hv.
  - intros m body t Ht Hinc Hnone. unfold forwarded_body.
    by rewrite Ht, or_else_empty, Hinc, Hnone.
  - intros m body Hinc. unfold forwarded_body. by rewrite Hinc.
  - intros validators. destruct (body_method_not_safe req Hsends) as [Hget Hhead].
    eexists. eexists. split; [by eapply proxyRequest_starts |].
    split.
    + unfold started_request, bodyData. cbn [cr_written]. by rewrite Hsends, Hbody.
    + split; [by apply forwarder_run |].
      cbn [receiving res]. unfold express_send, req_fresh.
      cbn [announced with_headers with_status response_for statusCode resHeaders req_method
           req_validators out finished head sent_status fmap option_fmap option_map app].
      rewrite Hget, Hhead. cbn [orb]. rewrite andb_false_r. cbn [andb fst].
      rewrite Hstatus. cbn [orb]. split; [done |].
      unfold forwarded_body. rewrite Hct, or_else_empty.
      apply includes_spec in Hjson. by rewrite Hjson, Hecho, Hround.
Qed.

Lemma forwarder_returns_decoded_json_witness :
  ∃ c x,
    proxyRequest example_URL_new example_JSON_stringify list_byte_of_string (λ _ _, None) false
                 example_post (set_res (response_for "POST" (λ _ _, true)) new_exchange)
    = Returned tt (in_flight_for "POST" (λ _ _, true) c) ∧
    cr_written c = [example_json_text] ∧
    deliver (proxy_event example_JSON_parse string_of_list_byte false)
            (EvResponse example_echo
               :: (EvData <$> [list_byte_of_string (String.substring 0 9 example_json_text);
                               list_byte_of_string (String.substring 9 14 example_json_text)])
               ++ [EvEnd])
            (in_flight_for "POST" (λ _ _, true) c)
    = Returned tt x ∧
    sent_status (res x) = Some 200 ∧
    out (res x) = [PJson example_payload].
Proof.
  destruct (forwarder_returns_decoded_json
              example_URL_new example_JSON_parse example_JSON_stringify
              list_byte_of_string string_of_list_byte (λ _ _, None) false
              example_post (QStr "http://example.com/echo") example_url example_payload
              example_echo
              [list_byte_of_string (String.substring 0 9 example_json_text);
               list_byte_of_string (String.substring 9 14 example_json_text)]
              "application/json; charset=utf-8"
              eq_refl eq_refl eq_refl (list_elem_of_here _ _) eq_refl eq_refl eq_refl eq_refl
              (ex_intro _ "" (ex_intro _ "; charset=utf-8" eq_refl)) eq_refl eq_refl eq_refl)
    as (_ & _ & _ & _ & Hround).
  exact (Hround (λ _ _, true)).
Defined.

(** C6 as worded returns the decoded body for every upstream response.
    Here a GET carries an If-None-Match equal to the entity tag the
    target sends: the forwarder copies the tag, decodes the body and calls
    [res.json] with it, and the caller is answered 304 with no body. *)
Lemma conditional_get_answered_304 :
  let body := list_byte_of_string example_json_text in
  let x := final_state
             (deliver (proxy_event example_JSON_parse string_of_list_byte false)
                      [EvResponse example_tagged; EvData body; EvEnd]
                      (in_flight_for "GET" (if_none_match example_etag)
                                     example_clientRequest)) in
  forwarded_body example_JSON_parse string_of_list_byte example_tagged body
  = PJson example_payload ∧
  resHeaders (announced example_tagged (response_for "GET" (if_none_match example_etag)))
    !! "etag" = Some example_etag ∧
  sent_status (res x) = Some 304 ∧
  out (res x) = [] ∧
  finished (res x) = true.
Proof. cbn zeta. repeat split; vm_compute; reflexivity. Qed.

(** ** Streaming Downloader: an upstream error in mid-transfer *)

(** C8, as the code has it.  Take a download that has handled the
    response event and [chunks] of the body when the upstream stream
    emits [error].  If no chunk has been written, the head has not gone
    out and the caller receives status 500 with the Download Error body,
    which ends the response.  If a chunk has been written, the listener
    does nothing at all: it writes no byte and changes no status, and it
    does not end the caller's response either, which stays open under the
    upstream status already sent. *)
Theorem download_stream_error_outcome
    (development : bool) (c : ClientRequest) (m : IncomingMessage)
    (chunks : list Buffer) (message : string) :
  let handle := download_event development in
  let before :=
    receiving c m [] (total_length chunks)
              (streamed (im_statusCode m) (download_response_headers m) chunks) in
  deliver handle (EvResponse m :: (EvData <$> chunks)) (in_flight c) = Returned tt before ∧
  (chunks = [] →
   handle (EvStreamError message) before
   = Returned tt (set_res (completed 500 (PJson body_download_error) (res before)) before) ∧
   sent_status (completed 500 (PJson body_download_error) (res before)) = Some 500 ∧
   finished (completed 500 (PJson body_download_error) (res before)) = true) ∧
  (chunks ≠ [] →
   handle (EvStreamError message) before = Returned tt before ∧
   sent_status (res before) = Some (im_statusCode m) ∧
   out_bytes (out (res before)) = concat chunks ∧
   finished (res before) = false).
Proof.
  cbn zeta. split; [| split].
  - cbn [deliver]. unfold eff_bind at 1. rewrite download_response_start.
    exact (download_data_all development c m _ _ chunks [] 0).
  - intros ->. repeat split.
  - intros Hne. destruct chunks as [| chunk chunks]; [done |]. repeat split.
    cbn [app streamed receiving res out]. apply out_bytes_chunks.
Qed.

(** C8 as worded has the caller's stream terminated once bytes have been
    sent; after one chunk and the upstream error the response is still
    open, with exactly that chunk delivered. *)
Lemma stream_error_leaves_response_open :
  let x := final_state
             (deliver (download_event false)
                      [EvResponse example_download; EvData [x68; x65]%byte;
                       EvStreamError "aborted"]
                      (in_flight example_clientRequest)) in
  headersSent (res x) = true ∧
  out_bytes (out (res x)) = [x68; x65]%byte ∧
  finished (res x) = false.
Proof. cbn. repeat split. Qed.

(** ** The header subset handed to the caller *)

(** Of the upstream headers exactly the listed ones reach the caller, and
    only with a truthy value; the three CORS headers are always added. *)
Lemma copied_subset (allow_headers : string) (m : IncomingMessage) (names : list string)
    (name : string) :
  Forall (λ n, n ∉ cors_names) names →
  let h := with_cors allow_headers (copied_headers m names ∅) in
  (name ∈ names →
   h !! name = match im_headers m !! name with
               | Some v => if String.eqb v "" then None else Some v
               | None => None
               end) ∧
  (name ∉ names → name ∉ cors_names → h !! name = None) ∧
  h !! "Access-Control-Allow-Origin" = Some "*" ∧
  h !! "Access-Control-Allow-Headers" = Some allow_headers.
Proof.
  intros Hnames. cbn zeta. unfold with_cors. split; [| split; [| split]].
  - intros Hin. rewrite Forall_forall in Hnames. specialize (Hnames name Hin).
    unfold cors_names in Hnames. rewrite !not_elem_of_cons in Hnames.
    destruct Hnames as (H1 & H2 & H3 & _).
    rewrite !lookup_insert_ne by done. by rewrite copied_headers_lookup.
  - intros Hnotin Hcors. unfold cors_names in Hcors. rewrite !not_elem_of_cons in Hcors.
    destruct Hcors as (H1 & H2 & H3 & _).
    rewrite !lookup_insert_ne by done. by rewrite copied_headers_other.
  - rewrite lookup_insert_ne by done. rewrite lookup_insert_ne by done.
    by rewrite lookup_insert_eq.
  - by rewrite lookup_insert_eq.
Qed.

(** ** The relay, from upgrade to open *)

(** An upgrade whose target the constructor accepts, followed by the
    target's [open] event, yields the bridged relay: both sockets open,
    nothing written to the raw socket, and the client told it is
    connected. *)
Lemma relay_opens (JSON_stringify : jsvalue → string) (now : string)
    (WebSocket_throws : string → option string) (request : Request) (targetUrl : string) :
  headers request !! "x-target-url" = Some targetUrl →
  targetUrl ≠ "" →
  WebSocket_throws targetUrl = None →
  (on_upgrade WebSocket_throws request ;;; relay_event JSON_stringify now TargetOpen) new_relay
  = Returned tt
      (bridged (socket new_relay)
               (opened (connecting_to targetUrl (ws_headers request)))
               (final_state (ws_send (connected_message JSON_stringify now targetUrl)
                                     client_socket))).
Proof.
  intros Hhdr Hne Hok. unfold eff_bind at 1.
  rewrite (on_upgrade_unchecked _ _ targetUrl) by done. by rewrite Hok.
Qed.

(** ** Worked values *)

Example form_urlencode_reserved : form_urlencode "a b&c=d/e~" = "a+b%26c%3Dd%2Fe%7E".
Proof. reflexivity. Qed.

Example form_urlencode_unreserved : form_urlencode "A-z_0.9*" = "A-z_0.9*".
Proof. reflexivity. Qed.

Example append_query_to_plain_path :
  append_query "/v1/items" [("page", "2"); ("q", "x y")] = "/v1/items?page=2&q=x+y".
Proof. reflexivity. Qed.

Example append_query_to_query_path :
  append_query "/v1/items?sort=asc" [("page", "2")] = "/v1/items?sort=asc&page=2".
Proof. reflexivity. Qed.

Example queryParams_single_entry : queryParams [("page", QStr "2")] = [].
Proof. reflexivity. Qed.

Example default_port_https :
  default_port {| protocol := "https:"; hostname := "x.com"; port := "";
                  pathname := "/"; search := "" |} = PortNum 443.
Proof. reflexivity. Qed.

Example default_port_explicit :
  default_port {| protocol := "http:"; hostname := "x.com"; port := "8080";
                  pathname := "/"; search := "" |} = PortStr "8080".
Proof. reflexivity. Qed.

Example matches_ws_scheme_http : matches_ws_scheme "http://example.com/echo" = false.
Proof. reflexivity. Qed.

Example matches_ws_scheme_wss : matches_ws_scheme "wss://example.com/socket" = true.
Proof. reflexivity. Qed.

(** * Further properties of the routes *)

(** ** Entry of the two HTTP routes *)

Lemma proxyRequest_run
    (URL_new : string → option URL) (JSON_stringify : jsvalue → string)
    (Buffer_from : string → Buffer)
    (request_throws : HttpModule → RequestOptions → option string) (development : bool)
    (req : Request) :
  ∃ x,
    proxyRequest URL_new JSON_stringify Buffer_from request_throws development req new_exchange
    = Returned tt x ∧
    match valid_target URL_new req with
    | None =>
        sent_status (res x) = Some 400 ∧ finished (res x) = true ∧ proxyReq x = None
    | Some u =>
        match request_throws (getHttpModule (protocol u))
                             (proxy_options JSON_stringify Buffer_from req u) with
        | Some e =>
            sent_status (res x) = Some 500 ∧ finished (res x) = true ∧ proxyReq x = None
        | None =>
            x = in_flight (started_request JSON_stringify Buffer_from req u) ∧
            headersSent (res x) = false
        end
    end.
Proof.
  unfold proxyRequest, valid_target.
  destruct (prop (query req) "url") as [target |]; [| by eexists].
  destruct (qvalue_truthy target); cbn [negb]; [| by eexists].
  unfold eff_bind at 1. rewrite isValidUrl_run.
  destruct (URL_new (qvalue_toString target)) as [u |] eqn:Hparse; [| by eexists].
  destruct (array_includes valid_protocols (protocol u)); cbn [negb]; [| by eexists].
  unfold try_catch, eff_bind at 1, construct_URL. rewrite Hparse. cbn [eff_ret].
  unfold eff_bind at 1, http_request.
  destruct (request_throws _ _) as [e |]; [by eexists |].
  eexists. split; [| done]. unfold started_request. by destruct (sends_body req).
Qed.

(** X1.  [proxyRequest] never throws.  Unless the [url] parameter is
    present, truthy, parses as a URL and has one of the four accepted
    protocols, it answers 400, ends the response and creates no outbound
    request.  With a valid target, an exception thrown by
    [httpModule.request] is answered with 500 and leaves no outbound
    request either; otherwise exactly the request built from the options
    is in flight, already ended, and the caller has been sent nothing. *)
Theorem proxyRequest_outcome
    (URL_new : string → option URL) (JSON_stringify : jsvalue → string)
    (Buffer_from : string → Buffer)
    (request_throws : HttpModule → RequestOptions → option string) (development : bool)
    (req : Request) :
  ∃ x,
    proxyRequest URL_new JSON_stringify Buffer_from request_throws development req new_exchange
    = Returned tt x ∧
    match valid_target URL_new req with
    | None =>
        sent_status (res x) = Some 400 ∧ finished (res x) = true ∧ proxyReq x = None
    | Some u =>
        match request_throws (getHttpModule (protocol u))
                             (proxy_options JSON_stringify Buffer_from req u) with
        | Some e =>
            sent_status (res x) = Some 500 ∧ finished (res x) = true ∧ proxyReq x = None
        | None =>
            x = in_flight (started_request JSON_stringify Buffer_from req u) ∧
            headersSent (res x) = false
        end
    end.
Proof. apply proxyRequest_run. Qed.

Lemma download_run
    (URL_new : string → option URL)
    (request_throws : HttpModule → RequestOptions → option string) (development : bool)
    (req : Request) :
  ∃ x,
    download URL_new request_throws development req new_exchange = Returned tt x ∧
    match valid_target URL_new req with
    | None =>
        sent_status (res x) = Some 400 ∧ finished (res x) = true ∧ proxyReq x = None
    | Some u =>
        match request_throws (getHttpModule (protocol u)) (download_options req u) with
        | Some e =>
            sent_status (res x) = Some 500 ∧ finished (res x) = true ∧ proxyReq x = None
        | None =>
            x = in_flight (download_request req u) ∧
            headersSent (res x) = false ∧
            opt_path (cr_options (download_request req u)) = pathname u +:+ search u ∧
            cr_written (download_request req u) = [] ∧
            timeout (cr_options (download_request req u)) = 60000
        end
    end.
Proof.
  unfold download, valid_target.
  destruct (prop (query req) "url") as [target |]; [| by eexists].
  destruct (qvalue_truthy target); cbn [negb]; [| by eexists].
  unfold eff_bind at 1. rewrite isValidUrl_run.
  destruct (URL_new (qvalue_toString target)) as [u |] eqn:Hparse; [| by eexists].
  destruct (array_includes valid_protocols (protocol u)); cbn [negb]; [| by eexists].
  unfold try_catch, eff_bind at 1, construct_URL. rewrite Hparse. cbn [eff_ret].
  unfold eff_bind at 1, http_request.
  destruct (request_throws _ _) as [e |]; by eexists.
Qed.

(** X2.  The download route has the same entry behaviour, and what it
    leaves in flight differs from the forwarder's request: the path is the
    target's own path and query string, so the caller's further query
    parameters are not forwarded; no body is written whatever the method;
    and the timeout is 60000 ms. *)
Theorem download_outcome
    (URL_new : string → option URL)
    (request_throws : HttpModule → RequestOptions → option string) (development : bool)
    (req : Request) :
  ∃ x,
    download URL_new request_throws development req new_exchange = Returned tt x ∧
    match valid_target URL_new req with
    | None =>
        sent_status (res x) = Some 400 ∧ finished (res x) = true ∧ proxyReq x = None
    | Some u =>
        match request_throws (getHttpModule (protocol u)) (download_options req u) with
        | Some e =>
            sent_status (res x) = Some 500 ∧ finished (res x) = true ∧ proxyReq x = None
        | None =>
            x = in_flight (download_request req u) ∧
            headersSent (res x) = false ∧
            opt_path (cr_options (download_request req u)) = pathname u +:+ search u ∧
            cr_written (download_request req u) = [] ∧
            timeout (cr_options (download_request req u)) = 60000
        end
    end.
Proof. apply download_run. Qed.

(** ** What goes upstream *)

Lemma sends_body_payload (req : Request) :
  sends_body req = true → ∃ payload, reqBody req = Some payload.
Proof.
  unfold sends_body, body_truthy. intros [_ H]%andb_prop.
  destruct (reqBody req) as [payload |]; [by exists payload | discriminate].
Qed.

(** X3.  Whenever [proxyRequest] leaves a request in flight, the request
    has been ended, and its Content-Length header and its body agree: for
    POST, PUT and PATCH with a truthy body exactly one piece of data is
    written, the JSON text of the body, and Content-Length is the decimal
    byte length of that text; in every other case nothing is written and
    no Content-Length header is set. *)
Theorem content_length_matches_body
    (URL_new : string → option URL) (JSON_stringify : jsvalue → string)
    (Buffer_from : string → Buffer)
    (request_throws : HttpModule → RequestOptions → option string) (development : bool)
    (req : Request) (x : Exchange) (c : ClientRequest) :
  proxyRequest URL_new JSON_stringify Buffer_from request_throws development req new_exchange
  = Returned tt x →
  proxyReq x = Some c →
  cr_ended c = true ∧
  (sends_body req = true →
   ∃ payload,
     reqBody req = Some payload ∧
     cr_written c = [JSON_stringify payload] ∧
     opt_headers (cr_options c) !! "Content-Length"
     = Some (pretty (Z.of_nat (length (Buffer_from (JSON_stringify payload)))))) ∧
  (sends_body req = false →
   cr_written c = [] ∧ opt_headers (cr_options c) !! "Content-Length" = None).
Proof.
  intros Hrun Hreq.
  destruct (proxyRequest_run URL_new JSON_stringify Buffer_from request_throws development req)
    as (x' & Hrun' & Hcases).
  rewrite Hrun in Hrun'. injection Hrun' as <-.
  destruct (valid_target URL_new req) as [u |];
    [| destruct Hcases as (_ & _ & Hnone); congruence].
  destruct (request_throws _ _);
    [destruct Hcases as (_ & _ & Hnone); congruence |].
  destruct Hcases as [-> _]. injection Hreq as <-.
  cbn [started_request cr_ended cr_written cr_options proxy_options opt_headers].
  split; [done |]. split.
  - intros Hsends. destruct (sends_body_payload req Hsends) as (payload & Hpayload).
    exists payload. split; [done |]. unfold with_content_length, bodyData.
    rewrite Hsends, Hpayload. split; [done |]. by rewrite lookup_insert_eq.
  - intros Hsends. unfold with_content_length. rewrite Hsends. split; [done |].
    rewrite proxy_headers_fixed by done. by simplify_map_eq.
Qed.

Lemma content_length_matches_body_witness :
  let c := started_request example_JSON_stringify list_byte_of_string example_post example_url in
  cr_ended c = true ∧
  cr_written c = [example_json_text] ∧
  opt_headers (cr_options c) !! "Content-Length" = Some "21".
Proof.
  cbn zeta.
  destruct (content_length_matches_body
              example_URL_new example_JSON_stringify list_byte_of_string (λ _ _, None) false
              example_post
              (in_flight (started_request example_JSON_stringify list_byte_of_string
                                          example_post example_url))
              (started_request example_JSON_stringify list_byte_of_string
                               example_post example_url)
              eq_refl eq_refl)
    as (Hended & Hbody & _).
  destruct (Hbody eq_refl) as (payload & Hpayload & Hwritten & Hlength).
  split; [exact Hended |]. split; [exact Hwritten | exact Hlength].
Defined.

Lemma not_elem_of_cons_inv {A} (x y : A) (l : list A) : x ∉ y :: l → x ≠ y ∧ x ∉ l.
Proof. by intros H%not_elem_of_cons. Qed.

(** X4.  Only the names of the header literals go upstream.  No inbound
    header outside the forwarder's seven names, and none outside the
    downloader's four, is part of the outbound headers, whatever the
    inbound request carries: an inbound cookie, host or forwarding header
    is not copied into the header object of the outbound request. *)
Theorem outbound_headers_are_allow_listed
    (JSON_stringify : jsvalue → string) (Buffer_from : string → Buffer)
    (req : Request) (u : URL) :
  (∀ name, name ∉ proxy_header_names →
           opt_headers (proxy_options JSON_stringify Buffer_from req u) !! name = None) ∧
  (∀ name, name ∉ download_header_names →
           opt_headers (download_options req u) !! name = None) ∧
  (∀ name, name ∈ download_header_names →
           is_Some (opt_headers (download_options req u) !! name)).
Proof.
  split; [| split].
  - intros name Hname. unfold proxy_header_names in Hname.
    repeat (apply not_elem_of_cons_inv in Hname as [? Hname]).
    cbn [proxy_options opt_headers].
    rewrite with_content_length_other, proxy_headers_fixed by done.
    by rewrite !lookup_insert_ne, lookup_empty by done.
  - intros name Hname. unfold download_header_names in Hname.
    repeat (apply not_elem_of_cons_inv in Hname as [? Hname]).
    cbn [download_options opt_headers]. unfold download_headers.
    by rewrite !lookup_insert_ne, lookup_empty by done.
  - intros name Hname. unfold download_header_names in Hname.
    cbn [download_options opt_headers]. unfold download_headers.
    repeat (apply elem_of_cons in Hname as [-> | Hname]);
      [by simplify_map_eq .. | by apply elem_of_nil in Hname].
Qed.

(** ** What comes back to the caller *)

Lemma copied_names_not_cors :
  Forall (λ n, n ∉ cors_names) proxy_headersToCopy ∧
  Forall (λ n, n ∉ cors_names) download_headersToCopy.
Proof. split; by apply (bool_decide_unpack _). Qed.

(** X5.  When the upstream response is announced, both routes set the
    upstream status and a filtered header block on the caller's response
    without sending anything yet.  Of the upstream headers only the listed
    names are copied, and only when their value is truthy; every other
    upstream header (set-cookie, location, server, ...) is dropped; and the
    CORS origin header is always [*], whatever upstream sent. *)
Theorem response_headers_are_allow_listed
    (JSON_parse : string → option jsvalue) (Buffer_toString : Buffer → string)
    (development : bool) (c : ClientRequest) (m : IncomingMessage) :
  let copied (name : string) : option string :=
    match im_headers m !! name with
    | Some v => if String.eqb v "" then None else Some v
    | None => None
    end in
  (∃ x, proxy_event JSON_parse Buffer_toString development (EvResponse m) (in_flight c)
        = Returned tt x ∧
        statusCode (res x) = im_statusCode m ∧ headersSent (res x) = false ∧
        resHeaders (res x) = proxy_response_headers m) ∧
  (∃ x, download_event development (EvResponse m) (in_flight c) = Returned tt x ∧
        statusCode (res x) = im_statusCode m ∧ headersSent (res x) = false ∧
        resHeaders (res x) = download_response_headers m) ∧
  (∀ name,
     (name ∈ proxy_headersToCopy → proxy_response_headers m !! name = copied name) ∧
     (name ∉ proxy_headersToCopy → name ∉ cors_names →
      proxy_response_headers m !! name = None) ∧
     (name ∈ download_headersToCopy → download_response_headers m !! name = copied name) ∧
     (name ∉ download_headersToCopy → name ∉ cors_names →
      download_response_headers m !! name = None)) ∧
  proxy_response_headers m !! "Access-Control-Allow-Origin" = Some "*" ∧
  download_response_headers m !! "Access-Control-Allow-Origin" = Some "*".
Proof.
  cbn zeta. destruct copied_names_not_cors as [Hproxy Hdownload].
  split; [eexists; split; [apply proxy_response_start | done] |].
  split; [eexists; split; [apply download_response_start | done] |].
  split.
  - intros name.
    destruct (copied_subset "Content-Type, Authorization, X-Requested-With, X-Custom-Header"
                            m proxy_headersToCopy name Hproxy) as (H1 & H2 & _).
    destruct (copied_subset
                "Content-Type, Authorization, X-Requested-With, X-Custom-Header, Range"
                m download_headersToCopy name Hdownload) as (H3 & H4 & _).
    repeat split; assumption.
  - split.
    + by destruct (copied_subset
                     "Content-Type, Authorization, X-Requested-With, X-Custom-Header"
                     m proxy_headersToCopy "" Hproxy) as (_ & _ & H & _).
    + by destruct (copied_subset
                     "Content-Type, Authorization, X-Requested-With, X-Custom-Header, Range"
                     m download_headersToCopy "" Hdownload) as (_ & _ & H & _).
Qed.

(** ** Failures of the download request *)

Lemma download_on_error_unsent (development : bool) (code message : string) (x : Exchange) :
  headersSent (res x) = false →
  ∃ (status : Z) (b : jsvalue),
    download_on_error development code message x
    = Returned tt (set_res (express_send (PJson b) (with_status status (res x))) x) ∧
    status = (if unreachable_code code then 502
              else if String.eqb code "ETIMEDOUT" then 504 else 500).
Proof.
  intros Hfresh. unfold download_on_error.
  destruct (unreachable_code code); [| destruct (String.eqb code "ETIMEDOUT")];
    rewrite respond_unsent by done; eauto.
Qed.

Lemma download_on_timeout_unsent (x : Exchange) :
  headersSent (res x) = false →
  download_on_timeout x
  = Returned tt
      (set_res (express_send (PJson (body_gateway_timeout "Download request timed out"))
                             (with_status 504 (res x)))
               (set_proxyReq (cr_destroy <$> proxyReq x) x)).
Proof.
  intros Hfresh. unfold download_on_timeout, eff_bind at 1, on_proxyReq, modify_state.
  unfold eff_bind at 1, get_state. cbn [set_proxyReq res].
  rewrite Hfresh. cbn [negb]. by rewrite respond_unsent.
Qed.

(** X7.  While nothing has been sent to the caller, the download route
    answers a failure of its outbound request like the forwarder does: an
    [error] event gives 502 for ENOTFOUND and ECONNREFUSED, 504 for
    ETIMEDOUT and 500 for every other code, and the [timeout] event
    destroys the outbound request and gives 504.  Each answer ends the
    caller's response and no listener throws. *)
Theorem download_failure_classification
    (development : bool) (x : Exchange) (c : ClientRequest) (code message : string) :
  headersSent (res x) = false →
  proxyReq x = Some c →
  let after_error := download_on_error development code message x in
  let after_timeout := download_on_timeout x in
  (has_thrown after_error = false ∧
   finished (res (final_state after_error)) = true ∧
   (code = "ENOTFOUND" ∨ code = "ECONNREFUSED" →
    sent_status (res (final_state after_error)) = Some 502) ∧
   (code = "ETIMEDOUT" → sent_status (res (final_state after_error)) = Some 504) ∧
   (code ≠ "ENOTFOUND" → code ≠ "ECONNREFUSED" → code ≠ "ETIMEDOUT" →
    sent_status (res (final_state after_error)) = Some 500) ∧
   outbound_destroyed (final_state after_error) = cr_destroyed c) ∧
  (has_thrown after_timeout = false ∧
   finished (res (final_state after_timeout)) = true ∧
   sent_status (res (final_state after_timeout)) = Some 504 ∧
   outbound_destroyed (final_state after_timeout) = true).
Proof.
  intros Hfresh Hreq. cbn zeta. split.
  - destruct (download_on_error_unsent development code message x Hfresh)
      as (status & b & -> & Hstatus).
    cbn. subst status. split; [done |]. split; [done |]. split; [| split; [| split]].
    + intros [-> | ->]; reflexivity.
    + intros ->; reflexivity.
    + intros H1 H2 H3. unfold unreachable_code.
      apply String.eqb_neq in H1, H2, H3. by rewrite H1, H2, H3.
    + unfold outbound_destroyed. cbn. by rewrite Hreq.
  - rewrite download_on_timeout_unsent by done. cbn.
    split; [done |]. split; [done |]. split; [done |].
    unfold outbound_destroyed. cbn. by rewrite Hreq.
Qed.

Lemma download_failure_classification_witness :
  let x := in_flight example_clientRequest in
  sent_status (res (final_state (download_on_error false "ENOTFOUND" "getaddrinfo ENOTFOUND" x)))
  = Some 502 ∧
  sent_status (res (final_state (download_on_timeout x))) = Some 504 ∧
  outbound_destroyed (final_state (download_on_timeout x)) = true.
Proof.
  cbn zeta.
  destruct (download_failure_classification false (in_flight example_clientRequest)
              example_clientRequest "ENOTFOUND" "getaddrinfo ENOTFOUND" eq_refl eq_refl)
    as ((_ & _ & H502 & _) & (_ & _ & H504 & Hdestroyed)).
  split; [apply H502; by left |]. split; [exact H504 | exact Hdestroyed].
Defined.

(** X8.  Once the first chunk of a download has been written, neither
    failure listener can tell the caller anything.  The [timeout] listener
    destroys the outbound request and leaves the caller's response exactly
    as it was, still open.  The [error] listener, which has no
    [headersSent] test, throws ERR_HTTP_HEADERS_SENT; the head and the
    bytes the caller received stay as they were and the response stays
    open. *)
Theorem download_failure_after_first_chunk
    (development : bool) (c : ClientRequest) (m : IncomingMessage)
    (n status : Z) (h : gmap string string) (chunk : Buffer) (chunks : list Buffer)
    (code message : string) :
  let r := streamed status h (chunk :: chunks) in
  let before := receiving c m [] n r in
  download_event development EvTimeout before
  = Returned tt (receiving (cr_destroy c) m [] n r) ∧
  finished r = false ∧
  ∃ x, download_event development (EvError code message) before
       = Thrown ERR_HTTP_HEADERS_SENT x ∧
       head (res x) = Some (status, h) ∧
       out (res x) = out r ∧
       finished (res x) = false ∧
       proxyReq x = Some c.
Proof.
  cbn zeta. split; [reflexivity |]. split; [reflexivity |].
  unfold download_event, eff_bind at 1, get_state, download_on_error.
  destruct (unreachable_code code); [| destruct (String.eqb code "ETIMEDOUT")];
    rewrite respond_sent by done; eexists; (split; [reflexivity | done]).
Qed.

(** ** A timeout while the forwarder is still buffering *)

(** X9.  The forwarder sends nothing to the caller before [end]: after
    the response event and any chunks the head is unsent and the body
    empty.  If the [timeout] event comes at that point, the caller gets
    status 504 with the Gateway Timeout body and none of the buffered
    upstream bytes, the outbound request is destroyed, and the head of
    that 504 carries the headers already copied from the upstream
    response: its truthy cache-control, etag and last-modified. *)
Theorem forwarder_timeout_while_buffering
    (JSON_parse : string → option jsvalue) (Buffer_toString : Buffer → string)
    (development : bool) (c : ClientRequest) (m : IncomingMessage) (chunks : list Buffer) :
  let handle := proxy_event JSON_parse Buffer_toString development in
  let received := EvResponse m :: (EvData <$> chunks) in
  (∃ x, deliver handle received (in_flight c) = Returned tt x ∧
        headersSent (res x) = false ∧ out (res x) = [] ∧
        responseData x = concat chunks) ∧
  (∃ x, deliver handle (received ++ [EvTimeout]) (in_flight c) = Returned tt x ∧
        head (res x) = Some (504, proxy_response_headers m) ∧
        out (res x)
        = [PJson (body_gateway_timeout "Request to target server timed out")] ∧
        out_bytes (out (res x)) = [] ∧
        finished (res x) = true ∧
        outbound_destroyed x = true) ∧
  (∀ name v, name ∈ ["cache-control"; "etag"; "last-modified"] →
             im_headers m !! name = Some v → v ≠ "" →
             proxy_response_headers m !! name = Some v).
Proof.
  cbn zeta.
  assert (Hreceived :
    deliver (proxy_event JSON_parse Buffer_toString development)
            (EvResponse m :: (EvData <$> chunks)) (in_flight c)
    = Returned tt (receiving c m (concat chunks) 0
                     (streamed (im_statusCode m) (proxy_response_headers m) []))).
  { cbn [deliver]. unfold eff_bind at 1. rewrite proxy_response_start.
    by rewrite proxy_data_all. }
  split; [eexists; split; [exact Hreceived | done] |]. split.
  - eexists. split.
    + rewrite deliver_app, Hreceived. cbn [deliver]. unfold eff_bind at 1.
      unfold proxy_event, eff_bind at 1, get_state.
      rewrite proxy_on_timeout_unsent by done. reflexivity.
    + done.
  - intros name v Hname Hv Hne.
    destruct copied_names_not_cors as [Hproxy _].
    destruct (copied_subset "Content-Type, Authorization, X-Requested-With, X-Custom-Header"
                            m proxy_headersToCopy name Hproxy) as (Hcopied & _).
    unfold proxy_response_headers. rewrite Hcopied, Hv.
    + by destruct (String.eqb_spec v "").
    + unfold proxy_headersToCopy.
      repeat (apply elem_of_cons in Hname as [-> | Hname]);
        [by apply (bool_decide_unpack _) .. | by apply elem_of_nil in Hname].
Qed.

(** ** The WebSocket information route *)

(** X10.  [/ws-proxy] answers without opening any connection, and what
    the caller receives is decided by [res.json].  With no [url]
    parameter the answer is 400.  With a string [url] that is non-empty,
    passes [isValidUrl] and begins with [ws://] or [wss://], the handler
    calls [res.json] with the instructions naming that target under the
    default status: the caller is answered 200 with them, or 304 without
    a body when the inbound GET or HEAD carries validators that match
    them.  Every other string is answered 400.  A HEAD is answered
    without a body in each case.  A [url] given as an array whose string
    form is a valid URL makes the handler throw, because an array has no
    [match] method, and nothing is sent by the handler. *)
Theorem ws_proxy_info_outcome (URL_new : string → option URL) (PORT : string) (req : Request)
    (validators : gmap string string → Payload → bool) :
  let r0 := response_for (method req) validators in
  let run := ws_proxy_info URL_new PORT req r0 in
  let head_only := String.eqb (method req) "HEAD" in
  let valid (s : string) : bool :=
    match URL_new s with
    | Some u => array_includes valid_protocols (protocol u)
    | None => false
    end in
  let refused (b : jsvalue) : Prop :=
    ∃ r, run = Returned tt r ∧ sent_status r = Some 400 ∧ finished r = true ∧
         out r = if head_only then [] else [PJson b] in
  (prop (query req) "url" = None → refused body_ws_required) ∧
  (∀ targetUrl, prop (query req) "url" = Some (QStr targetUrl) →
     if negb (String.eqb targetUrl "") && valid targetUrl && matches_ws_scheme targetUrl
     then
       let instructions := PJson (body_ws_instructions PORT targetUrl) in
       ∃ r, run = Returned tt r ∧ finished r = true ∧
            if (String.eqb (method req) "GET" || head_only) && validators ∅ instructions
            then sent_status r = Some 304 ∧ out r = []
            else sent_status r = Some 200 ∧ out r = if head_only then [] else [instructions]
     else ∃ b, refused b) ∧
  (∀ l, prop (query req) "url" = Some (QArr l) →
        valid (qvalue_toString (QArr l)) = true →
        ∃ e, run = Thrown e r0).
Proof.
  cbn zeta. unfold ws_proxy_info.
  assert (Hrefuse : ∀ b,
    ∃ r, (res_status 400 ;;; res_json b) (response_for (method req) validators)
         = Returned tt r ∧
         sent_status r = Some 400 ∧ finished r = true ∧
         out r = if String.eqb (method req) "HEAD" then [] else [PJson b]).
  { intros b. eexists. split; [by apply status_json_unsent |]. repeat split. }
  split; [| split].
  - intros ->. apply Hrefuse.
  - intros targetUrl ->. cbn [qvalue_truthy qvalue_toString].
    destruct (String.eqb targetUrl ""); cbn [negb andb]; [eexists; apply Hrefuse |].
    destruct (match URL_new targetUrl with Some _ => _ | None => _ end) eqn:Hvalid;
      cbn [negb andb];
      [destruct (matches_ws_scheme targetUrl) |];
      unfold eff_bind at 1; rewrite isValidUrl_run, Hvalid; cbn [negb];
      [| eexists; apply Hrefuse ..].
    eexists. split; [by apply res_complete_unsent |]. split; [done |].
    unfold express_send, req_fresh.
    cbn [response_for statusCode resHeaders req_method req_validators out head finished
         sent_status fmap option_fmap option_map].
    change (success_status 200) with true. cbn [andb].
    destruct ((String.eqb (method req) "GET" || String.eqb (method req) "HEAD")
              && validators ∅ (PJson (body_ws_instructions PORT targetUrl)));
      [by split |].
    split; [done |]. by destruct (String.eqb (method req) "HEAD").
  - intros l -> Hvalid. cbn [qvalue_truthy negb].
    unfold eff_bind at 1. rewrite isValidUrl_run, Hvalid. cbn [negb]. by eexists.
Qed.

(** ** The WebSocket relay *)

(** X11.  A refused upgrade writes one status line to the raw socket,
    destroys it and never creates a client WebSocket: 400 when the
    [x-target-url] header is missing or empty, in which case no outbound
    socket is constructed either; 500 when the WebSocket constructor
    throws; and 502 when the outbound socket reports an error before it
    opened. *)
Theorem upgrade_refusals
    (JSON_stringify : jsvalue → string) (now : string)
    (WebSocket_throws : string → option string) (request : Request) :
  let refused (status : string) (target : option WebSocket) : Relay :=
    {| socket := raw_socket_refused status; targetWs := target; ws := None |} in
  (headers request !! "x-target-url" = None ∨ headers request !! "x-target-url" = Some "" →
   on_upgrade WebSocket_throws request new_relay
   = Returned tt (refused "400 Bad Request" None)) ∧
  (∀ targetUrl e,
     headers request !! "x-target-url" = Some targetUrl → targetUrl ≠ "" →
     WebSocket_throws targetUrl = Some e →
     on_upgrade WebSocket_throws request new_relay
     = Returned tt (refused "500 Internal Server Error" None)) ∧
  (∀ targetUrl message,
     headers request !! "x-target-url" = Some targetUrl → targetUrl ≠ "" →
     WebSocket_throws targetUrl = None →
     (on_upgrade WebSocket_throws request ;;;
      relay_event JSON_stringify now (TargetError message)) new_relay
     = Returned tt (refused "502 Bad Gateway"
                            (Some (connecting_to targetUrl (ws_headers request))))).
Proof.
  cbn zeta. split; [| split].
  - unfold on_upgrade. by intros [-> | ->].
  - intros targetUrl e Hhdr Hne Hthrows.
    rewrite (on_upgrade_unchecked _ _ targetUrl) by done. by rewrite Hthrows.
  - intros targetUrl message Hhdr Hne Hok. unfold eff_bind at 1.
    rewrite (on_upgrade_unchecked _ _ targetUrl) by done. by rewrite Hok.
Qed.

(** X12.  When the constructor accepts the target and the outbound socket
    opens, the relay is bridged: the raw socket is untouched, both sockets
    are open, the outbound socket was constructed for exactly the header's
    address with a fixed User-Agent and the inbound Authorization and
    Cookie (empty when absent) and no other header, nothing has been sent
    to the target, and the client has received exactly one message, the
    connected notice. *)
Theorem relay_opening
    (JSON_stringify : jsvalue → string) (now : string)
    (WebSocket_throws : string → option string) (request : Request) (targetUrl : string) :
  headers request !! "x-target-url" = Some targetUrl →
  targetUrl ≠ "" →
  WebSocket_throws targetUrl = None →
  ∃ t c,
    (on_upgrade WebSocket_throws request ;;; relay_event JSON_stringify now TargetOpen)
      new_relay
    = Returned tt (bridged (socket new_relay) t c) ∧
    ws_url t = targetUrl ∧ readyState t = OPEN ∧ ws_sent t = [] ∧ ws_close_calls t = [] ∧
    readyState c = OPEN ∧ ws_close_calls c = [] ∧
    ws_sent c = [connected_message JSON_stringify now targetUrl] ∧
    ws_request_headers t !! "User-Agent" = Some "NativeProxy/1.0.0" ∧
    ws_request_headers t !! "Authorization"
    = Some (or_else (headers request !! "authorization") "") ∧
    ws_request_headers t !! "Cookie" = Some (or_else (headers request !! "cookie") "") ∧
    (∀ name, name ∉ ["User-Agent"; "Authorization"; "Cookie"] →
             ws_request_headers t !! name = None).
Proof.
  intros Hhdr Hne Hok. eexists. eexists.
  split; [by apply relay_opens |].
  cbn. unfold ws_headers. repeat split; try by simplify_map_eq.
  intros name Hname. repeat (apply not_elem_of_cons_inv in Hname as [? Hname]).
  by rewrite !lookup_insert_ne, lookup_empty by done.
Qed.

Lemma relay_opening_witness :
  ∃ t c,
    (on_upgrade (λ _, None) example_ws_upgrade ;;;
     relay_event example_JSON_stringify "2025-11-03T12:30:00.000Z" TargetOpen) new_relay
    = Returned tt (bridged (socket new_relay) t c) ∧
    ws_url t = "wss://example.com/socket" ∧
    ws_sent c = [MText example_json_text] ∧
    ws_request_headers t !! "Cookie" = Some "sid=1" ∧
    ws_request_headers t !! "Authorization" = Some "".
Proof.
  destruct (relay_opening example_JSON_stringify "2025-11-03T12:30:00.000Z" (λ _, None)
              example_ws_upgrade "wss://example.com/socket" eq_refl
              (λ H, eq_ind "wss://example.com/socket"
                           (λ s, match s with EmptyString => False | _ => True end) I _ H)
              eq_refl)
    as (t & c & Hrun & Hurl & _ & _ & _ & _ & _ & Hsent & _ & Hauth & Hcookie & _).
  exists t, c. split; [exact Hrun |]. split; [exact Hurl |]. split; [exact Hsent |].
  split; [exact Hcookie | exact Hauth].
Defined.

Lemma with_sent_nil (w : WebSocket) : with_sent [] w = w.
Proof. destruct w. unfold with_sent. cbn. by rewrite app_nil_r. Qed.

Lemma with_sent_app (l1 l2 : list Message) (w : WebSocket) :
  with_sent l2 (with_sent l1 w) = with_sent (l1 ++ l2) w.
Proof. unfold with_sent. cbn. by rewrite app_assoc. Qed.

Lemma ws_send_open (message : Message) (w : WebSocket) :
  readyState w = OPEN → ws_send message w = Returned tt (with_sent [message] w).
Proof.
  intros Hopen. unfold ws_send, with_sent. rewrite Hopen. destruct w. cbn in *. by subst.
Qed.

Lemma relay_message_step (JSON_stringify : jsvalue → string) (now : string)
    (k : RawSocket) (t c : WebSocket) (e : RelayEvent) :
  readyState t = OPEN → readyState c = OPEN → is_message e = true →
  relay_event JSON_stringify now e (bridged k t c)
  = Returned tt (bridged k (with_sent (MBinary <$> from_client [e]) t)
                           (with_sent (MBinary <$> from_target [e]) c)).
Proof.
  intros Ht Hc He. destruct e; try discriminate.
  - unfold relay_event, eff_bind, get_state, relay_on_target_message, try_catch,
      on_ws, on_opt, bridged.
    cbn [targetWs ws]. rewrite ws_send_open by done. cbn. by rewrite with_sent_nil.
  - unfold relay_event, eff_bind, get_state, relay_on_client_message, try_catch,
      on_targetWs, on_opt, bridged.
    cbn [targetWs ws]. rewrite ws_send_open by done. cbn. by rewrite with_sent_nil.
Qed.

(** X13.  In a relay whose two sockets are open, the payload of every
    message is forwarded unchanged, exactly once, and in order: after any
    interleaving of client and target messages the target has been sent
    the payloads of the client's messages in the order they came, the
    client those of the target's, no listener has thrown, and neither
    socket has been asked to close.  The kind of a message is not
    forwarded: the listeners pass the payload, a Buffer, to [send] and
    drop the flag that tells a text message from a binary one, so every
    message, a text message included, goes out as a binary message. *)
Theorem relay_forwards_in_order
    (JSON_stringify : jsvalue → string) (now : string)
    (k : RawSocket) (t c : WebSocket) (events : list RelayEvent) :
  readyState t = OPEN →
  readyState c = OPEN →
  forallb is_message events = true →
  relay_deliver (relay_event JSON_stringify now) events (bridged k t c)
  = Returned tt (bridged k (with_sent (MBinary <$> from_client events) t)
                           (with_sent (MBinary <$> from_target events) c)).
Proof.
  revert t c. induction events as [| e events IH]; intros t c Ht Hc Hall.
  - cbn. by rewrite !with_sent_nil.
  - cbn [forallb] in Hall. apply andb_prop in Hall as [He Hall].
    cbn [relay_deliver]. unfold eff_bind at 1.
    rewrite relay_message_step by done. rewrite IH by done.
    rewrite !with_sent_app, <- !fmap_app.
    assert (from_client [e] ++ from_client events = from_client (e :: events)) as ->
      by (by destruct e).
    assert (from_target [e] ++ from_target events = from_target (e :: events)) as ->
      by (by destruct e).
    reflexivity.
Qed.

Lemma relay_forwards_in_order_witness :
  let a := list_byte_of_string "a" in
  let b := list_byte_of_string "b" in
  let x := list_byte_of_string "x" in
  let events := [ClientMessage a false; TargetMessage x false;
                 ClientMessage [x01]%byte true; ClientMessage b false] in
  ∃ t c,
    relay_deliver (relay_event example_JSON_stringify "now") events
                  (bridged (socket new_relay) example_open_socket client_socket)
    = Returned tt (bridged (socket new_relay) t c) ∧
    ws_sent t = [MBinary a; MBinary [x01]%byte; MBinary b] ∧
    ws_sent c = [MBinary x] ∧
    ws_close_calls t = [] ∧ ws_close_calls c = [].
Proof.
  cbn zeta. eexists. eexists. split.
  - exact (relay_forwards_in_order example_JSON_stringify "now" (socket new_relay)
             example_open_socket client_socket
             [ClientMessage (list_byte_of_string "a") false;
              TargetMessage (list_byte_of_string "x") false;
              ClientMessage [x01]%byte true;
              ClientMessage (list_byte_of_string "b") false]
             eq_refl eq_refl eq_refl).
  - repeat split.
Defined.

(** ** The path-based route *)

(** X14.  [/api/*] forwards to the fixed host with the original URL as
    path.  When that target parses and the request can be built, the
    outbound path is exactly the parsed target's path and query string:
    the caller's query parameters, already part of the original URL, are
    not appended a second time, whatever [req.query] held.  Method,
    headers and body go out as in a direct [/proxy] call. *)
Theorem api_route_outcome
    (URL_new : string → option URL) (JSON_stringify : jsvalue → string)
    (Buffer_from : string → Buffer)
    (request_throws : HttpModule → RequestOptions → option string) (development : bool)
    (originalUrl : string) (req : Request) (u : URL) :
  URL_new (api_target originalUrl) = Some u →
  protocol u ∈ valid_protocols →
  request_throws (getHttpModule (protocol u))
                 (proxy_options JSON_stringify Buffer_from (api_request originalUrl req) u)
  = None →
  ∃ c,
    api_route URL_new JSON_stringify Buffer_from request_throws development originalUrl req
              new_exchange
    = Returned tt (in_flight c) ∧
    opt_hostname (cr_options c) = hostname u ∧
    opt_path (cr_options c) = pathname u +:+ search u ∧
    opt_method (cr_options c) = method req ∧
    opt_headers (cr_options c)
    = opt_headers (proxy_options JSON_stringify Buffer_from req u) ∧
    cr_written c = cr_written (started_request JSON_stringify Buffer_from req u) ∧
    cr_ended c = true.
Proof.
  intros Hparse Hproto Hok. eexists. split.
  - unfold api_route.
    eapply proxyRequest_starts; [reflexivity | | exact Hparse | done | exact Hok].
    unfold api_target. reflexivity.
  - repeat split.
Qed.

Lemma api_route_outcome_witness :
  ∃ c,
    api_route example_URL_new2 example_JSON_stringify list_byte_of_string (λ _ _, None) false
              "/api/v1/items?page=2" example_api_request new_exchange
    = Returned tt (in_flight c) ∧
    opt_path (cr_options c) = "/api/v1/items?page=2" ∧
    opt_method (cr_options c) = "PUT" ∧
    cr_written c = [example_json_text].
Proof.
  destruct (api_route_outcome example_URL_new2 example_JSON_stringify list_byte_of_string
              (λ _ _, None) false "/api/v1/items?page=2" example_api_request example_api_url
              eq_refl (list_elem_of_further _ _ _ (list_elem_of_here _ _)) eq_refl)
    as (c & Hrun & _ & Hpath & Hmethod & _ & Hwritten & _).
  exists c. split; [exact Hrun |]. split; [exact Hpath |]. split; [exact Hmethod | exact Hwritten].
Defined.

(** ** Module and port of the outbound request *)



(** ** An error of the target in an open relay *)

(** X16.  The error listener attached to the outbound socket while it was
    connecting is still attached once the relay is open.  A target error
    in an open relay therefore first writes the 502 status line to the raw
    socket that now carries the client's WebSocket and destroys it, and
    only then asks the client WebSocket to close with 1011; the outbound
    socket itself is not asked to close and no message is forwarded. *)
Theorem target_error_in_open_relay
    (JSON_stringify : jsvalue → string) (now : string)
    (k : RawSocket) (t c : WebSocket) (message : string) :
  ∃ c',
    relay_event JSON_stringify now (TargetError message) (bridged k t c)
    = Returned tt (bridged (socket_destroy (socket_write (status_line "502 Bad Gateway") k))
                           t c') ∧
    ws_close_calls c'
    = ws_close_calls c ++ [{| cc_code := Some 1011;
                              cc_reason := Some "Target WebSocket error" |}] ∧
    ws_sent c' = ws_sent c.
Proof. destruct c as [? ? [] ? ?]; eexists; (split; [reflexivity | done]). Qed.

(** ** A target that closes without a usable code *)

(** X19.  The target's [close] listener passes the code it is given
    straight to [ws.close].  When that code is one a close frame may not
    carry, the call throws out of the listener: the client socket, which
    was open, has left the open state, its [close] call is on record, and
    nothing was sent to it.  1005 (the target closed without a status)
    and 1006 (the connection broke) are such codes. *)
Theorem target_close_with_reserved_code_throws
    (JSON_stringify : jsvalue → string) (now : string)
    (k : RawSocket) (t c : WebSocket) (code : Z) (reason : string) :
  readyState c = OPEN →
  isValidStatusCode code = false →
  (∃ e c',
     relay_event JSON_stringify now (TargetClose code reason) (bridged k t c)
     = Thrown e (bridged k t c') ∧
     readyState c' = CLOSING ∧
     ws_close_calls c'
     = ws_close_calls c ++ [{| cc_code := Some code; cc_reason := Some reason |}] ∧
     ws_sent c' = ws_sent c) ∧
  isValidStatusCode 1005 = false ∧ isValidStatusCode 1006 = false.
Proof.
  intros Hopen Hcode. split; [| done].
  eexists. eexists. split.
  - unfold relay_event, eff_bind, get_state, relay_on_target_close, on_ws, on_opt, bridged.
    cbn [targetWs ws]. unfold ws_close. rewrite Hopen, Hcode. cbn [negb]. reflexivity.
  - done.
Qed.

Lemma target_close_with_reserved_code_throws_witness :
  ∃ e c',
    relay_event example_JSON_stringify "now" (TargetClose 1005 "")
                (bridged (socket new_relay) example_open_socket client_socket)
    = Thrown e (bridged (socket new_relay) example_open_socket c') ∧
    readyState c' = CLOSING ∧
    ws_close_calls c' = [{| cc_code := Some 1005; cc_reason := Some "" |}] ∧
    ws_sent c' = [].
Proof.
  destruct (target_close_with_reserved_code_throws
              example_JSON_stringify "now" (socket new_relay) example_open_socket
              client_socket 1005 "" eq_refl eq_refl) as [Hthrows _].
  exact Hthrows.
Defined.

(** ** The downloader's byte counter *)

(** X17.  At every point of a download the counter [downloadedBytes]
    equals the number of body bytes handed to the caller so far: after the
    response event and any chunks, both are the total length of those
    chunks. *)
Theorem downloaded_bytes_counts_written
    (development : bool) (c : ClientRequest) (m : IncomingMessage) (chunks : list Buffer) :
  ∃ x,
    deliver (download_event development) (EvResponse m :: (EvData <$> chunks)) (in_flight c)
    = Returned tt x ∧
    downloadedBytes x = Z.of_nat (length (out_bytes (out (res x)))) ∧
    out_bytes (out (res x)) = concat chunks.
Proof.
  eexists. split.
  - cbn [deliver]. unfold eff_bind at 1. rewrite download_response_start.
    apply download_data_all.
  - cbn [receiving downloadedBytes res streamed out app].
    rewrite out_bytes_chunks. split; [| done]. unfold total_length. lia.
Qed.
